(** * Mutation and normalization pipeline of the Google Ads integration

    A shallow embedding of the parts of [errors.py], [keywords.py], [ad.py]
    and [llm_services.py] that build mutation operations, correlate batched
    results, normalize remote failures and run the constrained headline
    generation loop.

    Python objects are records, [self] is passed and returned explicitly,
    exceptions are a sum type threaded through a small error monad, and the
    remote services (the advertising platform, the generative service) are
    functions carried by the client handle, every call being recorded in a
    log so that "no remote call" is a statement about that log. *)

From Stdlib Require Import ZArith Lia Ascii String DecimalString.
From stdpp Require Import base option list sets strings.

Local Open Scope string_scope.

(* ===================================================================== *)
(** ** Python values, exceptions and attribute access                    *)
(* ===================================================================== *)

Module Py.

(** The exception classes the modelled code raises or catches. *)
Inductive exn : Type :=
| AttributeError (name : string)
| IndexError
| ValueError (msg : string)
| Exception (msg : string).

(** A computation either returns a value or raises. *)
Inductive result (A : Type) : Type :=
| Return (a : A)
| Raise (e : exn).
Arguments Return {A} a.
Arguments Raise {A} e.

Definition bind {A B} (m : result A) (k : A -> result B) : result B :=
  match m with
  | Return a => k a
  | Raise e => Raise e
  end.

Definition returns {A} (m : result A) : Prop := exists a, m = Return a.

(** [except (AttributeError, IndexError): handler] *)
Definition is_attribute_or_index_error (e : exn) : bool :=
  match e with
  | AttributeError _ | IndexError => true
  | _ => false
  end.

Definition try_except {A} (body : result A) (caught : exn -> bool)
    (handler : result A) : result A :=
  match body with
  | Return a => Return a
  | Raise e => if caught e then handler else Raise e
  end.

(** An attribute slot of a dynamically typed object: [None] when the
    object has no such attribute, so that reading it raises
    [AttributeError]. *)
Definition attr (A : Type) : Type := option A.

Definition getattr {A} (name : string) (slot : attr A) : result A :=
  match slot with
  | Some v => Return v
  | None => Raise (AttributeError name)
  end.

Definition hasattr {A} (slot : attr A) : bool :=
  match slot with
  | Some _ => true
  | None => false
  end.

(** [getattr(obj, name, default)] *)
Definition getattr_default {A} (slot : attr A) (default : A) : A :=
  match slot with
  | Some v => v
  | None => default
  end.

(** [xs[0]] on a list. *)
Definition first_item {A} (xs : list A) : result A :=
  match xs with
  | x :: _ => Return x
  | [] => Raise IndexError
  end.

(** [s[:n]] for a non-negative constant [n]. *)
Fixpoint slice_to (n : nat) (s : string) : string :=
  match n, s with
  | S k, String c rest => String c (slice_to k rest)
  | _, _ => EmptyString
  end.

(** [str(x)] of an optional string: [None] prints as the word None. *)
Definition str_of_optional (o : option string) : string :=
  match o with
  | Some s => s
  | None => "None"
  end.

(** [str(n)] of an integer. *)
Definition str_of_int (n : Z) : string := NilZero.string_of_int (Z.to_int n).

(** Truthiness of a string and of a list. *)
Definition truthy_str (s : string) : bool :=
  match s with
  | EmptyString => false
  | _ => true
  end.

Definition truthy_list {A} (l : list A) : bool :=
  match l with
  | [] => false
  | _ => true
  end.

End Py.

Module PyNotations.
Notation "x <- m ;; k" := (Py.bind m (fun x => k))
  (at level 100, m at next level, right associativity).
End PyNotations.
Import PyNotations.

(* ===================================================================== *)
(** ** errors.py: the normalized error record and its extraction         *)
(* ===================================================================== *)

Module Errors.
Import Py.

(** *** The failure payload raised by the remote platform

    The payload is probed attribute by attribute in the source, so every
    attribute is a slot that may be absent. *)

Record FieldPathElement := { field_name : attr string }.

Record ErrorLocation := { field_path_elements : attr (list FieldPathElement) }.

Record ErrorTrigger := { string_value : attr string }.

(** [details.to_dict()]: the detail map as key / [str(value)] pairs, in
    the dictionary's order; absent when [details] cannot be converted. *)
Record ErrorDetails := { to_dict : attr (list (string * string)) }.

(** One entry of [ex.failure.errors].  The location slot is absent when
    the object has no such attribute; it holds [None] for the Python value
    [None], which is falsy, and a location otherwise. *)
Record FailureItem := {
  item_location : attr (option ErrorLocation);
  item_trigger : attr ErrorTrigger;
  item_details : attr ErrorDetails
}.

(** The error has a [location] attribute that names no field: it is
    [None], or a location message left unset, without elements. *)
Definition location_unset (e : FailureItem) : Prop :=
  item_location e = Some None
  \/ exists l, item_location e = Some (Some l) /\ field_path_elements l = Some [].

Record GoogleAdsFailure := { failure_errors : attr (list FailureItem) }.

Record PolicyViolationDetails := { external_policy_name : attr string }.

(** [ex.error]; [code_name] stands for [ex.error.code().name]. *)
Record RpcError := {
  code_name : attr string;
  policy_violation_details : attr PolicyViolationDetails;
  rpc_message : attr string;
  rpc_details : attr string
}.

Record GoogleAdsException := {
  request_id : attr string;
  error : attr RpcError;
  failure : attr GoogleAdsFailure
}.

(** *** The normalized record *)

Record GoogleAdsErrorDetail := { type_ : string; value : string }.

Record GoogleAdsError := {
  error_request_id : string;
  error_code : string;
  error_message : string;
  fields : list string;
  class_name : string;
  id : option string;
  class_id : option string;
  details : list GoogleAdsErrorDetail;
  trigger : option string;
  location : option (list FieldPathElement)
}.

(** *** GoogleAdsErrorHandler *)

Definition _extract_error_message (ex : GoogleAdsException) : result string :=
  err <- getattr "error" (error ex) ;;
  if hasattr (policy_violation_details err) then
    pvd <- getattr "policy_violation_details" (policy_violation_details err) ;;
    getattr "external_policy_name" (external_policy_name pvd)
  else if hasattr (rpc_message err) && hasattr (rpc_details err) then
    getattr "details" (rpc_details err)
  else
    let m := getattr_default (rpc_message err) "" in
    Return (if truthy_str m then m else getattr_default (rpc_details err) "").

(** [element.field_name for element in elements], stopping at the first
    element whose attribute is missing. *)
Fixpoint field_names (elements : list FieldPathElement) : result (list string) :=
  match elements with
  | [] => Return []
  | e :: rest =>
      n <- getattr "field_name" (field_name e) ;;
      ns <- field_names rest ;;
      Return (n :: ns)
  end.

(** The body of the [for error in ex.failure.errors] loop, with the
    accumulator [fields] passed along. *)
Fixpoint extend_with_locations (errors : list FailureItem) (acc : list string)
    : result (list string) :=
  match errors with
  | [] => Return acc
  | e :: rest =>
      loc <- getattr "location" (item_location e) ;;
      match loc with
      | Some l =>
          elements <- getattr "field_path_elements" (field_path_elements l) ;;
          ns <- field_names elements ;;
          extend_with_locations rest (acc ++ ns)
      | None => extend_with_locations rest acc
      end
  end.

Definition _extract_error_fields (ex : GoogleAdsException) : result (list string) :=
  f <- getattr "failure" (failure ex) ;;
  errors <- getattr "errors" (failure_errors f) ;;
  extend_with_locations errors [].

(** [ex.failure.errors[0]] *)
Definition first_failure_item (ex : GoogleAdsException) : result FailureItem :=
  f <- getattr "failure" (failure ex) ;;
  errors <- getattr "errors" (failure_errors f) ;;
  first_item errors.

Definition _extract_error_details (ex : GoogleAdsException)
    : result (list GoogleAdsErrorDetail) :=
  try_except
    (e <- first_failure_item ex ;;
     if hasattr (item_details e) then
       d <- getattr "details" (item_details e) ;;
       detail_dict <- getattr "to_dict" (to_dict d) ;;
       Return (map (fun kv => {| type_ := fst kv; value := snd kv |}) detail_dict)
     else Return [])
    is_attribute_or_index_error
    (Return []).

Definition _extract_trigger (ex : GoogleAdsException) : result (option string) :=
  try_except
    (e <- first_failure_item ex ;;
     t <- getattr "trigger" (item_trigger e) ;;
     s <- getattr "string_value" (string_value t) ;;
     Return (Some s))
    is_attribute_or_index_error
    (Return None).

Definition _extract_location (ex : GoogleAdsException)
    : result (option (list FieldPathElement)) :=
  try_except
    (e <- first_failure_item ex ;;
     loc <- getattr "location" (item_location e) ;;
     match loc with
     | Some l =>
         elements <- getattr "field_path_elements" (field_path_elements l) ;;
         Return (Some elements)
     | None => Raise (AttributeError "field_path_elements")
     end)
    is_attribute_or_index_error
    (Return None).

Definition create_error (ex : GoogleAdsException) (class_name : string)
    (id class_id : option string) : result GoogleAdsError :=
  error_message <- _extract_error_message ex ;;
  fields <- _extract_error_fields ex ;;
  details <- _extract_error_details ex ;;
  rid <- getattr "request_id" (request_id ex) ;;
  err <- getattr "error" (error ex) ;;
  code <- getattr "code" (code_name err) ;;
  trigger <- _extract_trigger ex ;;
  location <- _extract_location ex ;;
  Return {|
    error_request_id := rid;
    error_code := code;
    error_message := error_message;
    fields := fields;
    class_name := class_name;
    id := id;
    class_id := class_id;
    details := details;
    trigger := trigger;
    location := location
  |}.

End Errors.

(* ===================================================================== *)
(** ** The remote advertising platform as seen through the client handle *)
(* ===================================================================== *)

Module GoogleAds.
Import Py.

(** A remote call either responds or raises [GoogleAdsException]; the
    source catches no other exception class around a remote call. *)
Inductive RemoteOutcome (A : Type) : Type :=
| Responds (response : A)
| Fails (ex : Errors.GoogleAdsException).
Arguments Responds {A} response.
Arguments Fails {A} ex.

Record MutateResult := { resource_name : string }.

Record MutateResponse := { results : list MutateResult }.

(** Modelled from the spec: the path builders of the platform's service
    objects ([ad_group_path], [ad_path]) are not part of the repository;
    section 3 gives resource identifiers the shape
    container/container_id/kinds/local_id. *)
Definition resource_path (customer_id : option string) (kind : string)
    (local_id : option string) : string :=
  "customers/" ++ str_of_optional customer_id ++ "/" ++ kind ++ "/"
    ++ str_of_optional local_id.

Definition ad_group_path (customer_id ad_group_id : option string) : string :=
  resource_path customer_id "adGroups" ad_group_id.

Definition ad_path (customer_id ad_id : option string) : string :=
  resource_path customer_id "ads" ad_id.

End GoogleAds.

(* ===================================================================== *)
(** ** keywords.py: the keyword facade                                   *)
(* ===================================================================== *)

Module Keywords.
Import Py GoogleAds.

(** A keyword of the campaign model: a local identifier and a text. *)
Record Keyword := { id : Z; text : string }.

(** [client.enums.KeywordMatchTypeEnum] and
    [client.enums.AdGroupCriterionStatusEnum]. *)
Inductive KeywordMatchTypeEnum := EXACT | BROAD | PHRASE.
Inductive AdGroupCriterionStatusEnum := ENABLED.

(** [operation.create] of an [AdGroupCriterionOperation], or
    [operation.remove]. *)
Record AdGroupCriterion := {
  ad_group : string;
  status : AdGroupCriterionStatusEnum;
  keyword_text : string;
  negative : bool;
  keyword_match_type : KeywordMatchTypeEnum
}.

Inductive AdGroupCriterionOperation :=
| Create (criterion : AdGroupCriterion)
| Remove (resource : string).

(** One recorded call of [mutate_ad_group_criteria]. *)
Record RemoteCall := {
  call_customer_id : option string;
  call_operations : list AdGroupCriterionOperation
}.

Record GoogleAdsClient := {
  mutate_ad_group_criteria :
    option string -> list AdGroupCriterionOperation -> RemoteOutcome MutateResponse
}.

(** The instance attributes set by [__init__]. *)
Record GoogleAdsKeywordIntegration := {
  client : option GoogleAdsClient;
  googleads_account_id : option string;
  glitch_campaign_id : option string;
  keywords : list Keyword;
  match_type : string;
  googleads_ad_group_id : option string;
  errors : list Errors.GoogleAdsError
}.

Definition init (client : option GoogleAdsClient)
    (googleads_account_id googleads_ad_group_id glitch_campaign_id : option string)
    (keywords : option (list Keyword)) (match_type : string)
    : GoogleAdsKeywordIntegration :=
  {| client := client;
     googleads_account_id := googleads_account_id;
     glitch_campaign_id := glitch_campaign_id;
     keywords := match keywords with
                 | Some ks => if truthy_list ks then ks else []
                 | None => []
                 end;
     match_type := match_type;
     googleads_ad_group_id := googleads_ad_group_id;
     errors := [] |}.

(** [match_type_mapping.get(self.match_type, match_type_enum.BROAD)];
    the keys are the members of the string enum [KeywordMatchType]. *)
Definition match_type_mapping_get (match_type : string) : KeywordMatchTypeEnum :=
  if String.eqb match_type "EXACT" then EXACT
  else if String.eqb match_type "BROAD" then BROAD
  else if String.eqb match_type "PHRASE" then PHRASE
  else BROAD.

Definition _create_base_criterion_operation (self : GoogleAdsKeywordIntegration)
    (keyword_text : string) (is_negative : bool) : AdGroupCriterionOperation :=
  Create {|
    ad_group := ad_group_path (googleads_account_id self) (googleads_ad_group_id self);
    status := ENABLED;
    keyword_text := keyword_text;
    negative := is_negative;
    keyword_match_type := match_type_mapping_get (match_type self)
  |}.

(** What a call hands back.  The source returns a pair whose first
    component is [None], the caught exception or an empty list, a bare
    list, or [None]. *)
Inductive TupleHead :=
| HeadNone
| HeadException (e : Errors.GoogleAdsException)
| HeadEmptyList.

Inductive Returned :=
| ReturnsNone
| ReturnsTuple (head : TupleHead) (pairs : list (Z * string))
| ReturnsList (items : list (Z * string)).

(** The outcome of a method call: the value returned, the instance
    afterwards and the remote calls made, oldest first. *)
Record Run := {
  returned : Returned;
  self_after : GoogleAdsKeywordIntegration;
  remote_calls : list RemoteCall
}.

Definition _process_mutation_response (self : GoogleAdsKeywordIntegration)
    (response : MutateResponse) (is_negative : bool) : Returned :=
  let ids := map id (keywords self) in
  let googleads_ids := map resource_name (results response) in
  ReturnsTuple HeadNone (zip ids googleads_ids).

Definition _batch_mutate_keywords (self : GoogleAdsKeywordIntegration)
    (operations : list AdGroupCriterionOperation) (is_negative : bool) : Run :=
  match keywords self, client self with
  | _ :: _, Some c =>
      let call := {| call_customer_id := googleads_account_id self;
                     call_operations := operations |} in
      match mutate_ad_group_criteria c (googleads_account_id self) operations with
      | Responds response =>
          {| returned := _process_mutation_response self response is_negative;
             self_after := self;
             remote_calls := [call] |}
      | Fails e =>
          {| returned := if negb is_negative then ReturnsTuple (HeadException e) []
                         else ReturnsList [];
             self_after := self;
             remote_calls := [call] |}
      end
  | _, _ =>
      {| returned := ReturnsTuple HeadEmptyList [];
         self_after := self;
         remote_calls := [] |}
  end.

Definition _validate_prerequisites (self : GoogleAdsKeywordIntegration) : bool :=
  truthy_list (keywords self) && bool_decide (is_Some (client self)).

Definition add_keywords_to_googleads (self : GoogleAdsKeywordIntegration) : Run :=
  if negb (_validate_prerequisites self) then
    {| returned := ReturnsNone; self_after := self; remote_calls := [] |}
  else
    let operations :=
      map (fun keyword => _create_base_criterion_operation self (text keyword) false)
          (keywords self) in
    _batch_mutate_keywords self operations false.

Definition add_negative_keywords_to_googleads (self : GoogleAdsKeywordIntegration) : Run :=
  if negb (_validate_prerequisites self) then
    {| returned := ReturnsNone; self_after := self; remote_calls := [] |}
  else
    let operations :=
      map (fun keyword => _create_base_criterion_operation self (text keyword) true)
          (keywords self) in
    _batch_mutate_keywords self operations true.

(** The operations list that the two entry points build from the
    instance's keywords. *)
Definition built_operations (self : GoogleAdsKeywordIntegration)
    (is_negative : bool) : list AdGroupCriterionOperation :=
  map (fun keyword => _create_base_criterion_operation self (text keyword) is_negative)
      (keywords self).

(** [getattr(self, "keyword_id", None)]: the class never sets a
    [keyword_id] attribute, so the default is taken. *)
Definition add_error (self : GoogleAdsKeywordIntegration)
    (ex : Errors.GoogleAdsException) : result GoogleAdsKeywordIntegration :=
  error <- Errors.create_error ex "Keyword" (glitch_campaign_id self) None ;;
  Return {| client := client self;
            googleads_account_id := googleads_account_id self;
            glitch_campaign_id := glitch_campaign_id self;
            keywords := keywords self;
            match_type := match_type self;
            googleads_ad_group_id := googleads_ad_group_id self;
            errors := errors self ++ [error] |}.

End Keywords.

(* ===================================================================== *)
(** ** ad.py: text assets, validation and the ad facade                  *)
(* ===================================================================== *)

Module Ad.
Import Py GoogleAds.

Definition HEADLINE_MAX_LENGTH : nat := 30.
Definition MIN_HEADLINES : nat := 3.
Definition MIN_DESCRIPTIONS : nat := 2.
Definition MAX_HEADLINES : nat := 15.
Definition MAX_DESCRIPTIONS : nat := 4.

(** A headline or description of the campaign model. *)
Record AdText := { text : string }.

(** The ad handed in by the web layer; [ad_id] is absent on objects
    without an [id] attribute. *)
Record AdData := {
  ad_id : attr Z;
  url : string;
  headlines : list AdText;
  descriptions : list AdText
}.

Record AdUpdateConfig := {
  config_headlines : option (list AdText);
  config_descriptions : option (list AdText);
  config_final_urls : option (list string)
}.

(** *** GoogleAdsTextAssetCreator *)

(** The pin slots; [UNSPECIFIED] is the zero value and is falsy. *)
Inductive ServedAssetFieldType :=
| UNSPECIFIED | HEADLINE_1 | HEADLINE_2 | HEADLINE_3 | DESCRIPTION_1 | DESCRIPTION_2.

Record AdTextAsset := { asset_text : string; pinned_field : ServedAssetFieldType }.

Definition create_text_asset (text : string)
    (pinned : option ServedAssetFieldType) : AdTextAsset :=
  match pinned with
  | Some UNSPECIFIED | None => {| asset_text := text; pinned_field := UNSPECIFIED |}
  | Some slot => {| asset_text := text; pinned_field := slot |}
  end.

Definition truncate_headlines (headlines : list AdText) : list AdTextAsset :=
  map (fun headline => create_text_asset (slice_to HEADLINE_MAX_LENGTH (text headline)) None)
      headlines.

(** Assets read back as headlines, as when an ad fetched from the
    platform is submitted again. *)
Definition as_headlines (assets : list AdTextAsset) : list AdText :=
  map (fun a => {| text := asset_text a |}) assets.

(** *** AdValidator *)

Definition validate_headlines_and_descriptions {A B : Type}
    (headlines : list A) (descriptions : list B) : result unit :=
  if (length headlines <? MIN_HEADLINES)%nat then
    Raise (ValueError ("Number of Headlines must be "
                         ++ str_of_int (Z.of_nat MIN_HEADLINES) ++ " or greater"))
  else if (length descriptions <? MIN_DESCRIPTIONS)%nat then
    Raise (ValueError ("Number of Descriptions must be "
                         ++ str_of_int (Z.of_nat MIN_DESCRIPTIONS) ++ " or greater"))
  else Return tt.

Definition validate_url (url : string) : result unit :=
  if negb (truthy_str url)
     || negb (String.prefix "http://" url || String.prefix "https://" url)
  then Raise (ValueError "Invalid URL format. Must start with http:// or https://")
  else Return tt.

(** *** Operations sent to the platform *)

Inductive AdGroupAdStatusEnum := ENABLED.

(** [operation.create] of an [AdGroupAdOperation]. *)
Record AdGroupAdOperation := {
  create_status : AdGroupAdStatusEnum;
  create_ad_group : string;
  create_final_urls : list string;
  create_headlines : list AdTextAsset;
  create_descriptions : list AdTextAsset
}.

(** The fields of the platform's ad message that the update path
    writes; every other field stays at its zero value. *)
Record ResponsiveSearchAdInfo := {
  rsa_headlines : list AdTextAsset;
  rsa_descriptions : list AdTextAsset
}.

Record AdMessage := {
  ad_resource_name : string;
  final_urls : list string;
  responsive_search_ad : ResponsiveSearchAdInfo
}.

Record AdOperation := { update : AdMessage; update_mask : list string }.

Definition zero_ad : AdMessage :=
  {| ad_resource_name := "";
     final_urls := [];
     responsive_search_ad := {| rsa_headlines := []; rsa_descriptions := [] |} |}.

(** Modelled from the spec: [protobuf_helpers.field_mask(None, message)]
    belongs to the platform's client library, not to the repository.
    Section 4.3 makes it the list of field paths whose value differs from
    the all-zero baseline; the path of a field of a nested message is the
    dotted path from the root. *)
Definition field_mask_rsa (prefix : string) (r : ResponsiveSearchAdInfo) : list string :=
  (if truthy_list (rsa_headlines r) then [prefix ++ ".headlines"] else [])
  ++ (if truthy_list (rsa_descriptions r) then [prefix ++ ".descriptions"] else []).

Definition field_mask (modified : AdMessage) : list string :=
  (if truthy_str (ad_resource_name modified) then ["resource_name"] else [])
  ++ (if truthy_list (final_urls modified) then ["final_urls"] else [])
  ++ field_mask_rsa "responsive_search_ad" (responsive_search_ad modified).

Inductive RemoteCall :=
| MutateAdGroupAds (customer_id : option string) (operations : list AdGroupAdOperation)
| MutateAds (customer_id : option string) (operations : list AdOperation).

Record GoogleAdsClient := {
  mutate_ad_group_ads :
    option string -> list AdGroupAdOperation -> RemoteOutcome MutateResponse;
  mutate_ads :
    option string -> list AdOperation -> RemoteOutcome MutateResponse
}.

(** *** GoogleAdsAdIntegration *)

Record GoogleAdsAdIntegration := {
  client : GoogleAdsClient;
  googleads_account_id : option string;
  googleads_campaign_id : option string;
  errors : list Errors.GoogleAdsError
}.

Definition with_errors (self : GoogleAdsAdIntegration)
    (es : list Errors.GoogleAdsError) : GoogleAdsAdIntegration :=
  {| client := client self;
     googleads_account_id := googleads_account_id self;
     googleads_campaign_id := googleads_campaign_id self;
     errors := es |}.

(** The outcome of a method call: what it returned or raised, the
    instance afterwards, and the remote calls made. *)
Record Run (A : Type) := {
  outcome : result A;
  self_after : GoogleAdsAdIntegration;
  remote_calls : list RemoteCall
}.
Arguments outcome {A} _.
Arguments self_after {A} _.
Arguments remote_calls {A} _.

Definition _validate_ad_input (ad_group_id : string) (ad : AdData) : result unit :=
  if negb (truthy_str ad_group_id) then Raise (ValueError "ad_group_id is required")
  else
    _ <- validate_url (url ad) ;;
    validate_headlines_and_descriptions (headlines ad) (descriptions ad).

Definition _validate_update_input (ad : AdData) : result unit :=
  validate_headlines_and_descriptions (headlines ad) (descriptions ad).

Definition utm : string :=
  "?utm_source=google&utm_medium=cpc&utm_campaign={{campaignid}}&utm_term={{keyword}}&utm_content={{creative}}".

Definition _prepare_ad_group_ad (self : GoogleAdsAdIntegration)
    (ad_group_id : string) (ad : AdData) : AdGroupAdOperation :=
  let url := url ad ++ utm in
  {| create_status := ENABLED;
     create_ad_group := ad_group_path (googleads_account_id self) (Some ad_group_id);
     create_final_urls := [] ++ [url];
     create_headlines :=
       if truthy_list (headlines ad) then
         [] ++ map (fun headline => create_text_asset (text headline) None)
                   (take MAX_HEADLINES (headlines ad))
       else [];
     create_descriptions :=
       if truthy_list (descriptions ad) then
         [] ++ map (fun description => create_text_asset (text description) None)
                   (take MAX_DESCRIPTIONS (descriptions ad))
       else [] |}.

Definition add_error (self : GoogleAdsAdIntegration)
    (ex : Errors.GoogleAdsException) (ad : AdData) : result GoogleAdsAdIntegration :=
  error <- Errors.create_error ex "Ad"
             (Some (str_of_optional (googleads_campaign_id self)))
             (match ad_id ad with
              | Some i => Some (str_of_int i)
              | None => None
              end) ;;
  Return (with_errors self (errors self ++ [error])).

(** *** Extraction of the composite identifier

    [re.findall(r"adGroupAds\/(\d+~\d+)", name)[0]]: the group of the
    leftmost match.  A run of digits is followed by a character that is
    not a digit, so each [\d+] takes the whole run. *)

Definition is_digit (c : ascii) : bool :=
  (48 <=? nat_of_ascii c)%nat && (nat_of_ascii c <=? 57)%nat.

Fixpoint span_digits (s : string) : string * string :=
  match s with
  | String c rest =>
      if is_digit c then
        let (ds, tail) := span_digits rest in (String c ds, tail)
      else (EmptyString, s)
  | EmptyString => (EmptyString, EmptyString)
  end.

Fixpoint strip_prefix (p s : string) : option string :=
  match p, s with
  | EmptyString, _ => Some s
  | String a p', String b s' => if Ascii.eqb a b then strip_prefix p' s' else None
  | String _ _, EmptyString => None
  end.

Definition match_ad_group_ad_at (s : string) : option string :=
  match strip_prefix "adGroupAds/" s with
  | Some after =>
      match span_digits after with
      | (String _ _ as n, String "~" after_tilde) =>
          match span_digits after_tilde with
          | (String _ _ as m, _) => Some (n ++ "~" ++ m)
          | _ => None
          end
      | _ => None
      end
  | None => None
  end.

Fixpoint first_ad_group_ad_id (s : string) : result string :=
  match match_ad_group_ad_at s with
  | Some group => Return group
  | None =>
      match s with
      | String _ rest => first_ad_group_ad_id rest
      | EmptyString => Raise IndexError
      end
  end.

Definition create_responsive_search_ad (self : GoogleAdsAdIntegration)
    (ad_group_id : string) (ad : AdData) : Run (option string) :=
  match _validate_ad_input ad_group_id ad with
  | Raise e => {| outcome := Raise e; self_after := self; remote_calls := [] |}
  | Return _ =>
      let ad_group_ad := _prepare_ad_group_ad self ad_group_id ad in
      let call := MutateAdGroupAds (googleads_account_id self) [ad_group_ad] in
      match mutate_ad_group_ads (client self) (googleads_account_id self) [ad_group_ad] with
      | Responds response =>
          {| outcome := (first <- first_item (results response) ;;
                         found <- first_ad_group_ad_id (resource_name first) ;;
                         Return (Some found));
             self_after := self;
             remote_calls := [call] |}
      | Fails ex =>
          match add_error self ex ad with
          | Return self' =>
              {| outcome := Return None; self_after := self'; remote_calls := [call] |}
          | Raise e =>
              {| outcome := Raise e; self_after := self; remote_calls := [call] |}
          end
      end
  end.

(** *** The update path *)

Definition _prepare_update_operation (self : GoogleAdsAdIntegration)
    (googleads_ad_id : string) : AdOperation :=
  {| update := {| ad_resource_name :=
                    ad_path (googleads_account_id self) (Some googleads_ad_id);
                  final_urls := final_urls zero_ad;
                  responsive_search_ad := responsive_search_ad zero_ad |};
     update_mask := [] |}.

Definition _update_headlines (googleads_ad : AdMessage) (headlines : list AdText)
    : AdMessage :=
  let truncated_headlines := truncate_headlines headlines in
  {| ad_resource_name := ad_resource_name googleads_ad;
     final_urls := final_urls googleads_ad;
     responsive_search_ad :=
       {| rsa_headlines := [] ++ truncated_headlines;
          rsa_descriptions := rsa_descriptions (responsive_search_ad googleads_ad) |} |}.

Definition _update_descriptions (googleads_ad : AdMessage) (descriptions : list AdText)
    : AdMessage :=
  let description_assets :=
    map (fun desc => create_text_asset (text desc) None) descriptions in
  {| ad_resource_name := ad_resource_name googleads_ad;
     final_urls := final_urls googleads_ad;
     responsive_search_ad :=
       {| rsa_headlines := rsa_headlines (responsive_search_ad googleads_ad);
          rsa_descriptions := [] ++ description_assets |} |}.

Definition _update_final_urls (googleads_ad : AdMessage) (urls : list string)
    : AdMessage :=
  {| ad_resource_name := ad_resource_name googleads_ad;
     final_urls := [] ++ urls;
     responsive_search_ad := responsive_search_ad googleads_ad |}.

(** The template [operation.update] once the configured fields have
    been written into it. *)
Definition update_template (self : GoogleAdsAdIntegration)
    (googleads_ad_id : string) (config : AdUpdateConfig) : AdMessage :=
  let googleads_ad := update (_prepare_update_operation self googleads_ad_id) in
  let googleads_ad :=
    match config_headlines config with
    | Some hs => _update_headlines googleads_ad hs
    | None => googleads_ad
    end in
  let googleads_ad :=
    match config_descriptions config with
    | Some ds => _update_descriptions googleads_ad ds
    | None => googleads_ad
    end in
  match config_final_urls config with
  | Some urls => _update_final_urls googleads_ad urls
  | None => googleads_ad
  end.

Definition _execute_update_operation (self : GoogleAdsAdIntegration)
    (operation : AdOperation) (googleads_ad_id : string) : Run unit :=
  let operation :=
    {| update := update operation; update_mask := field_mask (update operation) |} in
  let call := MutateAds (googleads_account_id self) [operation] in
  match mutate_ads (client self) (googleads_account_id self) [operation] with
  | Responds _ => {| outcome := Return tt; self_after := self; remote_calls := [call] |}
  | Fails ex =>
      match Errors.create_error ex "Ad" (googleads_campaign_id self)
              (Some googleads_ad_id) with
      | Return error =>
          {| outcome := Return tt;
             self_after := with_errors self (errors self ++ [error]);
             remote_calls := [call] |}
      | Raise e => {| outcome := Raise e; self_after := self; remote_calls := [call] |}
      end
  end.

Definition _update_responsive_search_ad (self : GoogleAdsAdIntegration)
    (googleads_ad_id : string) (config : AdUpdateConfig) : Run unit :=
  let operation :=
    {| update := update_template self googleads_ad_id config;
       update_mask := update_mask (_prepare_update_operation self googleads_ad_id) |} in
  _execute_update_operation self operation googleads_ad_id.

Definition update_responsive_search_ad (self : GoogleAdsAdIntegration)
    (googleads_ad_id : string) (ad : AdData) : Run unit :=
  if negb (truthy_str googleads_ad_id) then
    {| outcome := Raise (ValueError "googleads_ad_id is required");
       self_after := self; remote_calls := [] |}
  else
    match _validate_update_input ad with
    | Raise e => {| outcome := Raise e; self_after := self; remote_calls := [] |}
    | Return _ =>
        let config :=
          {| config_headlines := Some (take MAX_HEADLINES (headlines ad));
             config_descriptions := Some (take MAX_DESCRIPTIONS (descriptions ad));
             config_final_urls := None |} in
        _update_responsive_search_ad self googleads_ad_id config
    end.

Definition update_ad_urls (self : GoogleAdsAdIntegration)
    (googleads_ad_id : string) (urls : list string) : Run unit :=
  let config :=
    {| config_headlines := None; config_descriptions := None;
       config_final_urls := Some urls |} in
  _update_responsive_search_ad self googleads_ad_id config.

(** The mask sent with an update of [config]. *)
Definition sent_update_mask (self : GoogleAdsAdIntegration)
    (googleads_ad_id : string) (config : AdUpdateConfig) : list string :=
  field_mask (update_template self googleads_ad_id config).

(** Following the spec's words: the paths of the sub-fields that the
    update config sets, whatever their value. *)
Definition paths_set_in_config (config : AdUpdateConfig) : list string :=
  (match config_final_urls config with Some _ => ["final_urls"] | None => [] end)
  ++ (match config_headlines config with
      | Some _ => ["responsive_search_ad.headlines"]
      | None => []
      end)
  ++ (match config_descriptions config with
      | Some _ => ["responsive_search_ad.descriptions"]
      | None => []
      end).

(** A config field that is set to a list with at least one item. *)
Definition set_and_nonempty {A : Type} (field : option (list A)) : bool :=
  match field with
  | Some (_ :: _) => true
  | _ => false
  end.

End Ad.

(* ===================================================================== *)
(** ** llm_services.py: output constraints and the generation loop       *)
(* ===================================================================== *)

Module LLM.
Import Py.

Definition in_range (lo hi : nat) (c : ascii) : bool :=
  (lo <=? nat_of_ascii c)%nat && (nat_of_ascii c <=? hi)%nat.

(** The character class [[a-zA-Z0-9 ]]. *)
Definition alnum_or_blank (c : ascii) : bool :=
  in_range 97 122 c || in_range 65 90 c || in_range 48 57 c || Ascii.eqb c " ".

Definition line_feed : ascii := ascii_of_nat 10.

(** [re.compile(r"^[a-zA-Z0-9 ]*$").match(v)]: the star consumes
    characters of the class; [$] holds at the end of the string and
    also just before a line feed that ends the string. *)
Fixpoint pattern_match (v : string) : bool :=
  match v with
  | EmptyString => true
  | String c rest =>
      if alnum_or_blank c then pattern_match rest
      else Ascii.eqb c line_feed && negb (truthy_str rest)
  end.

(** Following the spec's words: the text consists only of characters
    for which [p] holds. *)
Fixpoint consists_of (p : ascii -> bool) (v : string) : bool :=
  match v with
  | EmptyString => true
  | String c rest => p c && consists_of p rest
  end.

Section OutputConstraint.

(** The character tables behind [\w] and [\s] belong to the
    interpreter; they are taken as given. *)
Variable word_char : ascii -> bool.
Variable space_char : ascii -> bool.

(** [re.sub(r"[^\w\s]", "", v)] *)
Fixpoint remove_special (v : string) : string :=
  match v with
  | EmptyString => EmptyString
  | String c rest =>
      if negb (word_char c || space_char c) then remove_special rest
      else String c (remove_special rest)
  end.

Definition llm_output_constraint_check (v : string) (length : Z) : result string :=
  if (length <? Z.of_nat (String.length v))%Z then
    Raise (ValueError ("Text must be less than " ++ str_of_int length ++ " characters"))
  else if negb (pattern_match v) then Return (remove_special v)
  else Return v.

End OutputConstraint.

(** The default of the [length] parameter. *)
Definition default_length : Z := 30.

(** *** gen_ad_keyword_headline *)

Record AdKeywordHeadline := { keyword : string; headline : string }.

Record AdKeywordHeadlines := { response_keyword : string; headlines : list string }.

(** The generative service behind [CLIENT.chat.completions.create]:
    what the request numbered [i] (from 0) of one invocation returns or
    raises, for the given content and keyword and for the [max_retries]
    that the source passes along with every request. *)
Definition GenerativeService : Type :=
  string -> string -> Z -> nat -> result AdKeywordHeadlines.

(** [len(headline) <= 29 and headline not in existing_headlines] *)
Definition acceptable (existing_headlines : list string) (headline : string) : bool :=
  (String.length headline <=? 29)%nat
  && negb (existsb (String.eqb headline) existing_headlines).

(** The inner [for headline in result.headlines] loop: the first
    candidate that passes, if any. *)
Fixpoint first_acceptable (existing_headlines candidates : list string)
    : option string :=
  match candidates with
  | [] => None
  | headline :: rest =>
      if acceptable existing_headlines headline then Some headline
      else first_acceptable existing_headlines rest
  end.

(** Request [i] is answered, and every candidate of the answer is
    rejected. *)
Definition rejects_all (service : GenerativeService) (content keyword : string)
    (max_retries : Z) (existing_headlines : list string) (i : nat) : Prop :=
  exists response,
    service content keyword max_retries i = Return response
    /\ first_acceptable existing_headlines (headlines response) = None.

(** Following the spec's words: a candidate passes when it has at most
    29 characters and is not already among the existing headlines. *)
Definition passes (existing_headlines : list string) (candidate : string) : Prop :=
  String.length candidate <= 29 /\ ~ candidate ∈ existing_headlines.

(** Following the spec's words: [headline] is the first candidate of the
    list that passes, every candidate before it being rejected. *)
Definition first_passing (existing_headlines candidates : list string)
    (headline : string) : Prop :=
  exists before after,
    candidates = (before ++ headline :: after)%list
    /\ Forall (fun candidate => ~ passes existing_headlines candidate) before
    /\ passes existing_headlines headline.

(** Following the spec's words: request [i] is answered and no candidate
    of the answer passes. *)
Definition answer_rejected (service : GenerativeService) (content keyword : string)
    (max_retries : Z) (existing_headlines : list string) (i : nat) : Prop :=
  exists response,
    service content keyword max_retries i = Return response
    /\ Forall (fun candidate => ~ passes existing_headlines candidate)
         (headlines response).

Definition exhausted (max_retries : Z) : exn :=
  Exception ("Failed to generate a valid headline after "
               ++ str_of_int max_retries ++ " retries").

(** The outer [for _ in range(max_retries)] loop with [remaining]
    iterations to go after [made] requests; it yields the outcome and
    the number of requests made. *)
Fixpoint attempts (service : GenerativeService) (content keyword : string)
    (max_retries : Z) (existing_headlines : list string)
    (remaining made : nat) : result AdKeywordHeadline * nat :=
  match remaining with
  | O => (Raise (exhausted max_retries), made)
  | S remaining' =>
      match service content keyword max_retries made with
      | Raise e => (Raise e, S made)
      | Return result =>
          match first_acceptable existing_headlines (headlines result) with
          | Some headline =>
              (Return {| keyword := keyword; headline := headline |}, S made)
          | None =>
              attempts service content keyword max_retries existing_headlines
                       remaining' (S made)
          end
      end
  end.

Definition gen_ad_keyword_headline (service : GenerativeService)
    (content keyword : string) (max_retries : Z) (existing_headlines : list string)
    : result AdKeywordHeadline * nat :=
  attempts service content keyword max_retries existing_headlines
           (Z.to_nat max_retries) 0.

(** The defaults [max_retries=5] and [existing_headlines=[]]. *)
Definition default_max_retries : Z := 5.

Definition gen_ad_keyword_headline_default (service : GenerativeService)
    (content keyword : string) : result AdKeywordHeadline * nat :=
  gen_ad_keyword_headline service content keyword default_max_retries [].

End LLM.

(* ===================================================================== *)
(** ** Concrete platforms, exceptions and ads used in the examples       *)
(* ===================================================================== *)

Module Fixtures.
Import Py GoogleAds.

(** A well-formed failure item except for what the arguments say. *)
Definition item (loc : attr (option Errors.ErrorLocation)) : Errors.FailureItem :=
  {| Errors.item_location := loc;
     Errors.item_trigger := Some {| Errors.string_value := Some "Gym" |};
     Errors.item_details :=
       Some {| Errors.to_dict := Some [("unpublished_error_code", "TOO_LONG")] |} |}.

Definition exception_with (items : list Errors.FailureItem) : Errors.GoogleAdsException :=
  {| Errors.request_id := Some "req-1";
     Errors.error :=
       Some {| Errors.code_name := Some "INVALID_ARGUMENT";
               Errors.policy_violation_details := None;
               Errors.rpc_message := Some "Request contains an invalid argument.";
               Errors.rpc_details := Some "Too long." |};
     Errors.failure := Some {| Errors.failure_errors := Some items |} |}.

(** The first error has no [location] attribute at all. *)
Definition ex_location_missing : Errors.GoogleAdsException :=
  exception_with [item None].

(** The first error has a [location] attribute that is unset. *)
Definition ex_location_unset : Errors.GoogleAdsException :=
  exception_with [item (Some None)].

Definition ex_location_set : Errors.GoogleAdsException :=
  exception_with
    [item (Some (Some {| Errors.field_path_elements :=
                           Some [ {| Errors.field_name := Some "operations" |};
                                  {| Errors.field_name := Some "create" |} ] |}))].

(** An ads platform that accepts everything, and one that rejects
    everything with a given exception. *)
Definition accepting_ads : Ad.GoogleAdsClient :=
  {| Ad.mutate_ad_group_ads := fun _ _ =>
       Responds {| results := [ {| resource_name := "customers/1/adGroupAds/22~333" |} ] |};
     Ad.mutate_ads := fun _ _ =>
       Responds {| results := [ {| resource_name := "customers/1/ads/333" |} ] |} |}.

Definition ad_facade : Ad.GoogleAdsAdIntegration :=
  {| Ad.client := accepting_ads;
     Ad.googleads_account_id := Some "1";
     Ad.googleads_campaign_id := Some "7";
     Ad.errors := [] |}.

Definition gym_ad : Ad.AdData :=
  {| Ad.ad_id := Some 5%Z;
     Ad.url := "https://gym.example";
     Ad.headlines := [ {| Ad.text := "Gym Software" |}; {| Ad.text := "Gym Plans" |};
                       {| Ad.text := "Gym Billing" |} ];
     Ad.descriptions := [ {| Ad.text := "Run your gym." |};
                          {| Ad.text := "Bill your members." |} ] |}.

Definition only_headlines : Ad.AdUpdateConfig :=
  {| Ad.config_headlines := Some [ {| Ad.text := "Gym Software" |} ];
     Ad.config_descriptions := None;
     Ad.config_final_urls := None |}.

Definition emptied_urls : Ad.AdUpdateConfig :=
  {| Ad.config_headlines := None;
     Ad.config_descriptions := None;
     Ad.config_final_urls := Some [] |}.

(** A keyword platform answering with one resource name per operation,
    and one that raises. *)
Definition criterion_name (i : nat) : MutateResult :=
  {| resource_name := "customers/1/adGroupCriteria/9~" ++ str_of_int (Z.of_nat i) |}.

Definition accepting_keywords : Keywords.GoogleAdsClient :=
  {| Keywords.mutate_ad_group_criteria := fun _ operations =>
       Responds {| results := map criterion_name (seq 0 (length operations)) |} |}.

Definition rejecting_keywords (ex : Errors.GoogleAdsException)
    : Keywords.GoogleAdsClient :=
  {| Keywords.mutate_ad_group_criteria := fun _ _ => Fails ex |}.

Definition three_keywords : list Keywords.Keyword :=
  [ {| Keywords.id := 11%Z; Keywords.text := "gym" |};
    {| Keywords.id := 12%Z; Keywords.text := "gym software" |};
    {| Keywords.id := 13%Z; Keywords.text := "fitness" |} ].

Definition keyword_facade (c : option Keywords.GoogleAdsClient)
    (ks : list Keywords.Keyword) : Keywords.GoogleAdsKeywordIntegration :=
  Keywords.init c (Some "1") (Some "9") (Some "7") (Some ks) "BROAD".

(** A generative service that answers request [i] with the [i]-th
    scripted list of headlines, and with no headline afterwards,
    whatever the content and the retry bound it is given. *)
Definition scripted (script : list (list string)) : LLM.GenerativeService :=
  fun _ keyword _ i =>
    Return {| LLM.response_keyword := keyword;
              LLM.headlines := nth i script [] |}.

(** Character tables restricted to the ASCII range. *)
Definition ascii_word (c : ascii) : bool :=
  LLM.in_range 97 122 c || LLM.in_range 65 90 c || LLM.in_range 48 57 c
  || Ascii.eqb c "_".

Definition ascii_space (c : ascii) : bool :=
  LLM.in_range 9 13 c || Ascii.eqb c " ".

End Fixtures.

(* ===================================================================== *)
(** ** Exceptions that leave a method uncaught                           *)
(* ===================================================================== *)

Module Uncaught.

(** Outside the facades' [try] blocks a platform exception propagates to
    the caller like any Python exception. *)
Inductive raised : Type :=
| PythonError (e : Py.exn)
| PlatformError (ex : Errors.GoogleAdsException).

Inductive outcome (A : Type) : Type :=
| Done (a : A)
| Raised (r : raised).
Arguments Done {A} a.
Arguments Raised {A} r.

Definition of_result {A} (m : Py.result A) : outcome A :=
  match m with
  | Py.Return a => Done a
  | Py.Raise e => Raised (PythonError e)
  end.

End Uncaught.

(* ===================================================================== *)
(** ** keywords.py: URL repair, keyword ideas and keyword queries        *)
(* ===================================================================== *)

Module KeywordTools.
Import Py GoogleAds Uncaught.

(** [re.sub(r"^(http://)?", "https://", url)] when [url] does not start
    with the secure scheme: the anchored optional group matches once, at
    the start, taking the plain scheme when it is there. *)
Definition fix_url (url : string) : string :=
  if negb (String.prefix "https://" url) then
    match Ad.strip_prefix "http://" url with
    | Some rest => "https://" ++ rest
    | None => "https://" ++ url
    end
  else url.

(** *** generate_keyword_ideas *)

Inductive KeywordPlanNetworkEnum := GOOGLE_SEARCH.

(** The request; exactly one of the three seeds is meant to be set. *)
Record GenerateKeywordIdeasRequest := {
  request_customer_id : option string;
  request_language : string;
  include_adult_keywords : bool;
  keyword_plan_network : KeywordPlanNetworkEnum;
  url_seed : option string;
  keyword_seed : option (list string);
  keyword_and_url_seed : option (string * list string)
}.

Record KeywordIdeaMetrics := {
  avg_monthly_searches : attr Z;
  competition_index : attr Z;
  low_top_of_page_bid : attr Z;
  high_top_of_page_bid : attr Z;
  competition : attr string
}.

Record KeywordIdea := {
  idea_text : attr string;
  keyword_idea_metrics : attr KeywordIdeaMetrics
}.

(** One dictionary of the returned list. *)
Record IdeaEntry := {
  entry_keyword : string;
  entry_competition : string;
  average_monthly_searches : Z
}.

(** The two services the function asks the client for. *)
Record IdeasClient := {
  language_constant_path : option string -> string;
  generate_ideas : GenerateKeywordIdeasRequest -> RemoteOutcome (list KeywordIdea)
}.

(** Truthiness of the optional keyword list. *)
Definition truthy_keywords (keyword_texts : option (list string)) : bool :=
  match keyword_texts with
  | Some ks => truthy_list ks
  | None => false
  end.

Definition keywords_of (keyword_texts : option (list string)) : list string :=
  match keyword_texts with
  | Some ks => ks
  | None => []
  end.

(** The [hasattr] chain that guards an idea. *)
Definition has_metrics (idea : KeywordIdea) : bool :=
  match keyword_idea_metrics idea with
  | Some m =>
      hasattr (avg_monthly_searches m) && hasattr (competition_index m)
      && hasattr (low_top_of_page_bid m) && hasattr (high_top_of_page_bid m)
  | None => false
  end.

(** The [for idea in keyword_ideas] loop. *)
Fixpoint collect_ideas (keyword_ideas : list KeywordIdea) : result (list IdeaEntry) :=
  match keyword_ideas with
  | [] => Return []
  | idea :: rest =>
      if has_metrics idea then
        m <- getattr "keyword_idea_metrics" (keyword_idea_metrics idea) ;;
        competition_value <- getattr "competition" (competition m) ;;
        keyword <- getattr "text" (idea_text idea) ;;
        searches <- getattr "avg_monthly_searches" (avg_monthly_searches m) ;;
        ideas <- collect_ideas rest ;;
        Return ({| entry_keyword := keyword;
                   entry_competition := competition_value;
                   average_monthly_searches := searches |} :: ideas)
      else collect_ideas rest
  end.

(** The request assembled before the service is called. *)
Definition ideas_request (client : IdeasClient) (googleads_account_id : option string)
    (page_url : string) (keyword_texts : option (list string))
    (language_id : option string) : GenerateKeywordIdeasRequest :=
  {| request_customer_id := googleads_account_id;
     request_language := language_constant_path client language_id;
     include_adult_keywords := false;
     keyword_plan_network := GOOGLE_SEARCH;
     url_seed :=
       if negb (truthy_keywords keyword_texts) && truthy_str page_url
       then Some page_url else None;
     keyword_seed :=
       if truthy_keywords keyword_texts && negb (truthy_str page_url)
       then Some ([] ++ keywords_of keyword_texts)%list else None;
     keyword_and_url_seed :=
       if truthy_keywords keyword_texts && truthy_str page_url
       then Some (page_url, ([] ++ keywords_of keyword_texts)%list) else None |}.

(** What the call returned or raised, and the requests it sent. *)
Record IdeasRun := {
  ideas_outcome : outcome (list IdeaEntry);
  ideas_requests : list GenerateKeywordIdeasRequest
}.

Definition generate_keyword_ideas (client : IdeasClient)
    (googleads_account_id : option string) (page_url : string)
    (keyword_texts : option (list string)) (language_id : option string) : IdeasRun :=
  let page_url := fix_url page_url in
  if negb (truthy_keywords keyword_texts || truthy_str page_url) then
    {| ideas_outcome :=
         Raised (PythonError (ValueError
           "At least one of keywords or page URL is required, but neither was specified."));
       ideas_requests := [] |}
  else
    let request :=
      ideas_request client googleads_account_id page_url keyword_texts language_id in
    match generate_ideas client request with
    | Responds keyword_ideas =>
        {| ideas_outcome := of_result (collect_ideas keyword_ideas);
           ideas_requests := [request] |}
    | Fails ex =>
        {| ideas_outcome := Raised (PlatformError ex); ideas_requests := [request] |}
    end.

(** *** Keyword queries of the facade *)

Definition nl : string := String (ascii_of_nat 10) EmptyString.

(** [needle in haystack] on strings. *)
Fixpoint contains (needle haystack : string) : bool :=
  String.prefix needle haystack
  || match haystack with
     | String _ rest => contains needle rest
     | EmptyString => false
     end.

(** [row.ad_group_criterion] of a result row. *)
Record CriterionRow := { row_resource_name : string; row_keyword_text : string }.

Inductive QueryCall :=
| SearchStream (customer_id : option string) (query : string)
| MutateCriteria (customer_id : option string)
    (operations : list Keywords.AdGroupCriterionOperation).

(** The services a query method reaches through [self.client]; the
    search answers with batches of rows. *)
Record QueryClient := {
  search_stream : option string -> string -> RemoteOutcome (list (list CriterionRow));
  mutate_criteria :
    option string -> list Keywords.AdGroupCriterionOperation
    -> RemoteOutcome MutateResponse
}.

Record QueryRun (A : Type) := {
  query_outcome : outcome A;
  query_calls : list QueryCall
}.
Arguments query_outcome {A} _.
Arguments query_calls {A} _.

Definition _build_keyword_query (googleads_ad_group_id : option string)
    (select_field : string) : string :=
  nl ++ "            SELECT " ++ select_field
  ++ nl ++ "            FROM ad_group_criterion"
  ++ nl ++ "            WHERE"
  ++ nl ++ "                ad_group_criterion.type = 'KEYWORD'"
  ++ nl ++ "                AND ad_group_criterion.status != 'REMOVED'"
  ++ nl ++ "                AND ad_group.id = " ++ str_of_optional googleads_ad_group_id
  ++ nl ++ "        ".

(** The two nested loops over batches and rows. *)
Definition collect_rows (query : string) (response : list (list CriterionRow))
    : list string :=
  concat
    (map (fun batch =>
            map (fun row =>
                   if contains "resource_name" query then row_resource_name row
                   else row_keyword_text row)
                batch)
         response).

Definition _execute_keyword_query (client : QueryClient)
    (googleads_account_id : option string) (query : string) : QueryRun (list string) :=
  let call := SearchStream googleads_account_id query in
  match search_stream client googleads_account_id query with
  | Responds response =>
      {| query_outcome := Done (collect_rows query response); query_calls := [call] |}
  | Fails ex =>
      {| query_outcome := Raised (PlatformError ex); query_calls := [call] |}
  end.

Definition get_keywords_for_ad_group (client : QueryClient)
    (googleads_account_id googleads_ad_group_id : option string)
    : QueryRun (list string) :=
  let query :=
    _build_keyword_query googleads_ad_group_id "ad_group_criterion.resource_name" in
  _execute_keyword_query client googleads_account_id query.

Definition get_keywords_text_for_ad_group (client : QueryClient)
    (googleads_account_id googleads_ad_group_id : option string)
    : QueryRun (list string) :=
  let query :=
    _build_keyword_query googleads_ad_group_id "ad_group_criterion.keyword.text" in
  _execute_keyword_query client googleads_account_id query.

Definition _create_remove_operation (keyword : string)
    : Keywords.AdGroupCriterionOperation :=
  Keywords.Remove keyword.

Definition remove_keywords_from_googleads (client : QueryClient)
    (googleads_account_id googleads_ad_group_id : option string) : QueryRun unit :=
  let found := get_keywords_for_ad_group client googleads_account_id googleads_ad_group_id in
  match query_outcome found with
  | Raised r => {| query_outcome := Raised r; query_calls := query_calls found |}
  | Done keywords =>
      if negb (truthy_list keywords) then
        {| query_outcome := Done tt; query_calls := query_calls found |}
      else
        let operations := map _create_remove_operation keywords in
        let call := MutateCriteria googleads_account_id operations in
        match mutate_criteria client googleads_account_id operations with
        | Responds _ =>
            {| query_outcome := Done tt; query_calls := query_calls found ++ [call] |}
        | Fails ex =>
            {| query_outcome := Raised (PlatformError ex);
               query_calls := query_calls found ++ [call] |}
        end
  end.

End KeywordTools.

(* ===================================================================== *)
(** ** ad.py: the ad group manager and the read-back helper              *)
(* ===================================================================== *)

Module AdGroups.
Import Py GoogleAds Uncaught.

Inductive AdGroupTypeEnum := SEARCH_STANDARD | SEARCH_DYNAMIC_ADS.
Inductive AdGroupStatusEnum := ENABLED | PAUSED.

Record AdGroupConfig := {
  name : string;
  type_ : AdGroupTypeEnum;
  status : AdGroupStatusEnum;
  cpc_bid_micros : option Z;
  tracking_url_template : option string
}.

(** [operation.create] of an [AdGroupOperation]; the two optional fields
    are [None] while nothing has been assigned to them. *)
Record AdGroup := {
  group_name : string;
  group_status : AdGroupStatusEnum;
  group_type : AdGroupTypeEnum;
  group_campaign : string;
  group_cpc_bid_micros : option Z;
  group_tracking_url_template : option string
}.

Record GroupCall := {
  call_customer_id : option string;
  call_operations : list AdGroup
}.

Record GroupClient := {
  mutate_ad_groups : option string -> list AdGroup -> RemoteOutcome MutateResponse
}.

Record GoogleAdsAdGroupManager := {
  client : GroupClient;
  googleads_account_id : option string;
  googleads_campaign_id : option string
}.

Record Run := {
  outcome : Uncaught.outcome string;
  remote_calls : list GroupCall
}.

(** The path builder of the campaign service, of the same shape as the
    other resource paths. *)
Definition campaign_path (customer_id campaign_id : option string) : string :=
  resource_path customer_id "campaigns" campaign_id.

(** Truthiness of the optional campaign identifier. *)
Definition campaign_id_set (self : GoogleAdsAdGroupManager) : bool :=
  match googleads_campaign_id self with
  | Some i => truthy_str i
  | None => false
  end.

Definition _validate_googleads_campaign_id (self : GoogleAdsAdGroupManager)
    : result unit :=
  if negb (campaign_id_set self) then
    Raise (ValueError "googleads_campaign_id is required for creating an ad group")
  else Return tt.

(** [cpc_bid_micros] of the ad group message is a signed 64-bit
    field: assigning an integer outside its range raises [ValueError]
    (the wording of the message is the library's). *)
Definition int64_min : Z := (-9223372036854775808)%Z.
Definition int64_max : Z := 9223372036854775807%Z.

Definition fits_int64 (n : Z) : bool :=
  ((int64_min <=? n) && (n <=? int64_max))%Z.

Definition assign_int64 (n : Z) : result Z :=
  if fits_int64 n then Return n
  else Raise (ValueError ("Value out of range: " ++ str_of_int n)).

Definition _create_ad_group_operation (self : GoogleAdsAdGroupManager)
    (config : AdGroupConfig) : result AdGroup :=
  let campaign :=
    campaign_path (googleads_account_id self) (googleads_campaign_id self) in
  bid <- match cpc_bid_micros config with
         | Some bid => assigned <- assign_int64 bid ;; Return (Some assigned)
         | None => Return None
         end ;;
  let template :=
    match tracking_url_template config with
    | Some template => Some template
    | None => None
    end in
  Return {| group_name := name config;
            group_status := status config;
            group_type := type_ config;
            group_campaign := campaign;
            group_cpc_bid_micros := bid;
            group_tracking_url_template := template |}.

(** [re.findall(r"adGroups\/(\d+)", name)[0]]: the digits that follow
    the leftmost occurrence of the literal that digits follow. *)
Definition match_ad_group_at (s : string) : option string :=
  match Ad.strip_prefix "adGroups/" s with
  | Some after =>
      match Ad.span_digits after with
      | (String _ _ as n, _) => Some n
      | _ => None
      end
  | None => None
  end.

Fixpoint first_ad_group_id (s : string) : result string :=
  match match_ad_group_at s with
  | Some group => Return group
  | None =>
      match s with
      | String _ rest => first_ad_group_id rest
      | EmptyString => Raise IndexError
      end
  end.

Definition _extract_ad_group_id (response : MutateResponse) : result string :=
  first <- first_item (results response) ;;
  first_ad_group_id (resource_name first).

Definition create_ad_group (self : GoogleAdsAdGroupManager) (config : AdGroupConfig)
    : Run :=
  match _validate_googleads_campaign_id self with
  | Raise e => {| outcome := Raised (PythonError e); remote_calls := [] |}
  | Return _ =>
      match _create_ad_group_operation self config with
      | Raise e => {| outcome := Raised (PythonError e); remote_calls := [] |}
      | Return operation =>
          let call := {| call_customer_id := googleads_account_id self;
                         call_operations := [operation] |} in
          match mutate_ad_groups (client self) (googleads_account_id self)
                  [operation] with
          | Responds response =>
              {| outcome := of_result (_extract_ad_group_id response);
                 remote_calls := [call] |}
          | Fails ex =>
              {| outcome := Raised (PlatformError ex); remote_calls := [call] |}
          end
      end
  end.

(** [uuid] stands for the value that [uuid.uuid4()] draws. *)
Definition create_dynamic_ad_group (self : GoogleAdsAdGroupManager) (uuid : string)
    : Run :=
  let config :=
    {| name := "Dynamic Ad Group #" ++ uuid;
       type_ := SEARCH_DYNAMIC_ADS;
       status := PAUSED;
       cpc_bid_micros := None;
       tracking_url_template := None |} in
  create_ad_group self config.

(** [GoogleAdsAdIntegration.create_googleads_ad_group], which hands the
    config to the manager built from the same client and identifiers. *)
Definition create_googleads_ad_group (group_manager : GoogleAdsAdGroupManager)
    (uuid : string) (ad : Ad.AdData) : Run :=
  let config :=
    {| name := "Gl-" ++ Ad.url ad ++ "-" ++ uuid;
       type_ := SEARCH_STANDARD;
       status := ENABLED;
       cpc_bid_micros := Some 10000000%Z;
       tracking_url_template := None |} in
  create_ad_group group_manager config.

(** [ad_text_assets_to_array] *)
Definition ad_text_assets_to_array (assets : list Ad.AdTextAsset) : list string :=
  fold_left (fun (s : list string) asset => (s ++ [Ad.asset_text asset])%list) assets [].

End AdGroups.

(* ===================================================================== *)
(** ** llm_services.py: regeneration and the site link validators        *)
(* ===================================================================== *)

Module Headlines.
Import Py LLM.

(** The dictionary with the keys [keyword] and [headline]. *)
Record HeadlineEntry := { entry_keyword : string; entry_headline : string }.

(** [regenerate_headline].  The handler formats its message with
    [headline.keyword]; the headline is a dictionary, which has no such
    attribute, so the handler itself raises [AttributeError].  A call that
    takes neither branch would fall through and return [None]. *)
Definition regenerate_headline (service : GenerativeService) (content : string)
    (headline : HeadlineEntry) : result (option HeadlineEntry) * nat :=
  if (String.length (entry_headline headline) <=? 29)%nat then
    (Return (Some headline), 0)
  else if (29 <? String.length (entry_headline headline))%nat then
    let keyword := entry_keyword headline in
    match gen_ad_keyword_headline_default service content keyword with
    | (Return new_headline_result, requests) =>
        (Return (Some {| entry_keyword := keyword;
                         entry_headline := LLM.headline new_headline_result |}),
         requests)
    | (Raise e, requests) => (Raise (AttributeError "keyword"), requests)
    end
  else (Return None, 0).

(** *** SiteLinkNameDescriptionsCallout *)

Record SiteLinkNameDescriptionsCallout := {
  url : string;
  name : string;
  description1 : string;
  description2 : string;
  callout : string
}.

Section SiteLinkValidation.

Variable word_char : ascii -> bool.
Variable space_char : ascii -> bool.

(** The model's validation: every annotated field goes through its
    validator and is replaced by what the validator returns; the object
    exists only when no validator raises. *)
Definition validate_site_link (raw : SiteLinkNameDescriptionsCallout)
    : option SiteLinkNameDescriptionsCallout :=
  match llm_output_constraint_check word_char space_char (name raw) 25,
        llm_output_constraint_check word_char space_char (description1 raw) 35,
        llm_output_constraint_check word_char space_char (description2 raw) 35,
        llm_output_constraint_check word_char space_char (callout raw) 25 with
  | Return n, Return d1, Return d2, Return c =>
      Some {| url := url raw; name := n; description1 := d1;
              description2 := d2; callout := c |}
  | _, _, _, _ => None
  end.

End SiteLinkValidation.

End Headlines.

(* ===================================================================== *)
(** ** Further platforms and inputs used in the examples                 *)
(* ===================================================================== *)

Module MoreFixtures.
Import Py GoogleAds.

Definition found_rows : list (list KeywordTools.CriterionRow) :=
  [ [ {| KeywordTools.row_resource_name := "customers/1/adGroupCriteria/9~10";
         KeywordTools.row_keyword_text := "gym" |} ];
    [];
    [ {| KeywordTools.row_resource_name := "customers/1/adGroupCriteria/9~11";
         KeywordTools.row_keyword_text := "gym software" |};
      {| KeywordTools.row_resource_name := "customers/1/adGroupCriteria/9~12";
         KeywordTools.row_keyword_text := "fitness" |} ] ].

Definition query_client (rows : list (list KeywordTools.CriterionRow))
    : KeywordTools.QueryClient :=
  {| KeywordTools.search_stream := fun _ _ => Responds rows;
     KeywordTools.mutate_criteria := fun _ _ => Responds {| results := [] |} |}.

Definition ideas_client (ideas : list KeywordTools.KeywordIdea)
    : KeywordTools.IdeasClient :=
  {| KeywordTools.language_constant_path :=
       fun language_id => "languageConstants/" ++ str_of_optional language_id;
     KeywordTools.generate_ideas := fun _ => Responds ideas |}.

Definition gym_idea : KeywordTools.KeywordIdea :=
  {| KeywordTools.idea_text := Some "gym software";
     KeywordTools.keyword_idea_metrics :=
       Some {| KeywordTools.avg_monthly_searches := Some 880%Z;
               KeywordTools.competition_index := Some 41%Z;
               KeywordTools.low_top_of_page_bid := Some 1200000%Z;
               KeywordTools.high_top_of_page_bid := Some 5400000%Z;
               KeywordTools.competition := Some "MEDIUM" |} |}.

Definition bare_idea : KeywordTools.KeywordIdea :=
  {| KeywordTools.idea_text := Some "gym"; KeywordTools.keyword_idea_metrics := None |}.

(** A platform that names the created ad group after the campaign's
    account and a fixed identifier. *)
Definition group_client : AdGroups.GroupClient :=
  {| AdGroups.mutate_ad_groups := fun customer_id _ =>
       Responds {| results := [ {| resource_name := ad_group_path customer_id (Some "4077") |} ] |} |}.

Definition group_manager (campaign_id : option string) : AdGroups.GoogleAdsAdGroupManager :=
  {| AdGroups.client := group_client;
     AdGroups.googleads_account_id := Some "1";
     AdGroups.googleads_campaign_id := campaign_id |}.

(** A config whose bid is 2**63, one past the largest signed 64-bit
    integer. *)
Definition overflowing_bid : AdGroups.AdGroupConfig :=
  {| AdGroups.name := "Gym";
     AdGroups.type_ := AdGroups.SEARCH_STANDARD;
     AdGroups.status := AdGroups.ENABLED;
     AdGroups.cpc_bid_micros := Some 9223372036854775808%Z;
     AdGroups.tracking_url_template := None |}.

Definition rejecting_ads (ex : Errors.GoogleAdsException) : Ad.GoogleAdsClient :=
  {| Ad.mutate_ad_group_ads := fun _ _ => Fails ex;
     Ad.mutate_ads := fun _ _ => Fails ex |}.

Definition rejected_ad_facade (ex : Errors.GoogleAdsException) : Ad.GoogleAdsAdIntegration :=
  {| Ad.client := rejecting_ads ex;
     Ad.googleads_account_id := Some "1";
     Ad.googleads_campaign_id := Some "7";
     Ad.errors := [] |}.

Definition long_entry : Headlines.HeadlineEntry :=
  {| Headlines.entry_keyword := "Gym";
     Headlines.entry_headline := "Gym Software For Every Fitness Center" |}.

End MoreFixtures.

(* ===================================================================== *)
(** * Properties                                                         *)
(* ===================================================================== *)

(** Membership in a list that is written out. *)
Ltac elem_found :=
  repeat first [apply list_elem_of_here | apply list_elem_of_further].

Ltac elem_cases H :=
  repeat (apply elem_of_cons in H as [H|H]; [try discriminate|]);
  try (apply elem_of_nil in H; contradiction).

(** ** Generic facts about the Python layer *)

Section PyFacts.
Import Py.

Lemma slice_to_length (n : nat) (s : string) :
  String.length (slice_to n s) <= n.
Proof.
  revert s; induction n as [|n IH]; intros [|c s]; simpl; try lia.
  specialize (IH s); lia.
Qed.

Lemma slice_to_short (n : nat) (s : string) :
  String.length s <= n -> slice_to n s = s.
Proof.
  revert s; induction n as [|n IH]; intros [|c s]; simpl; intros H;
    try reflexivity; try lia.
  f_equal; apply IH; lia.
Qed.

Lemma slice_to_idempotent (n : nat) (s : string) :
  slice_to n (slice_to n s) = slice_to n s.
Proof. apply slice_to_short, slice_to_length. Qed.

Lemma bind_return_inv {A B} (m : result A) (k : A -> result B) (b : B) :
  bind m k = Return b -> exists a, m = Return a /\ k a = Return b.
Proof. destruct m as [a|e]; simpl; [eauto | discriminate]. Qed.

End PyFacts.

(** ** Text assets and validation ([ad.py]) *)

Section AdFacts.
Import Py Ad.

Lemma create_text_asset_text (t : string) :
  asset_text (create_text_asset t None) = t.
Proof. reflexivity. Qed.

Lemma truncate_headlines_texts (hs : list AdText) :
  map asset_text (truncate_headlines hs)
  = map (fun h => slice_to HEADLINE_MAX_LENGTH (text h)) hs.
Proof.
  unfold truncate_headlines; rewrite map_map; apply map_ext; intros h.
  apply create_text_asset_text.
Qed.

(** C7: every asset produced by [truncate_headlines] has a text of at
    most 30 characters, the i-th asset comes from the i-th headline by a
    plain slice, headlines that already fit are returned with their text
    unchanged, and truncating the result again changes nothing. *)
Theorem truncate_headlines_bounded_and_idempotent (hs : list AdText) :
  Forall (fun a => String.length (asset_text a) <= 30) (truncate_headlines hs)
  /\ length (truncate_headlines hs) = length hs
  /\ (forall (i : nat) (h : AdText), hs !! i = Some h ->
        asset_text <$> (truncate_headlines hs !! i) = Some (slice_to 30 (text h)))
  /\ (Forall (fun h => String.length (text h) <= 30) hs ->
        map asset_text (truncate_headlines hs) = map text hs)
  /\ truncate_headlines (as_headlines (truncate_headlines hs)) = truncate_headlines hs.
Proof.
  repeat split.
  - unfold truncate_headlines; apply Forall_forall; intros a Ha.
    apply list_elem_of_In, in_map_iff in Ha; destruct Ha as (h & <- & _).
    simpl; apply (slice_to_length 30).
  - unfold truncate_headlines; apply length_map.
  - intros i h Hi; unfold truncate_headlines.
    rewrite list_lookup_fmap, Hi; reflexivity.
  - intros Hall; rewrite truncate_headlines_texts.
    induction Hall as [|h hs' Hh _ IH]; cbn [map]; [reflexivity|].
    f_equal; [apply slice_to_short; exact Hh | exact IH].
  - unfold as_headlines, truncate_headlines; rewrite !map_map.
    apply map_ext; intros h; cbn [text asset_text create_text_asset].
    rewrite slice_to_idempotent; reflexivity.
Qed.

Lemma truncate_headlines_bounded_and_idempotent_witness :
  map asset_text
      (truncate_headlines
         [ {| text := "Gym Software for Fitness Centers" |};
           {| text := "HomeCare Nurse Management" |} ])
  = [ "Gym Software for Fitness Cente"; "HomeCare Nurse Management" ]
  /\ map asset_text (truncate_headlines [ {| text := "HomeCare Nurse Management" |} ])
     = [ "HomeCare Nurse Management" ].
Proof.
  split; [reflexivity|].
  apply (truncate_headlines_bounded_and_idempotent
           [ {| text := "HomeCare Nurse Management" |} ]).
  repeat constructor; simpl; lia.
Defined.

(** C8: the count validator raises [ValueError] exactly when there are
    fewer than 3 headlines or fewer than 2 descriptions and returns
    normally otherwise; it is a function of the two lists alone, so it
    has no effect besides its result.  Two headlines with three
    descriptions fail, three headlines with two descriptions pass. *)
Theorem validate_headlines_and_descriptions_spec
    {A B : Type} (hs : list A) (ds : list B) :
  ((exists msg, validate_headlines_and_descriptions hs ds = Raise (ValueError msg))
     <-> length hs < 3 \/ length ds < 2)
  /\ (validate_headlines_and_descriptions hs ds = Return tt
        <-> 3 <= length hs /\ 2 <= length ds)
  /\ (forall e, validate_headlines_and_descriptions hs ds = Raise e ->
        exists msg, e = ValueError msg)
  /\ (forall h1 h2 : A, forall d1 d2 d3 : B,
        validate_headlines_and_descriptions [h1; h2] [d1; d2; d3]
        = Raise (ValueError "Number of Headlines must be 3 or greater"))
  /\ (forall h1 h2 h3 : A, forall d1 d2 : B,
        validate_headlines_and_descriptions [h1; h2; h3] [d1; d2] = Return tt).
Proof.
  unfold validate_headlines_and_descriptions, MIN_HEADLINES, MIN_DESCRIPTIONS.
  repeat split; try reflexivity.
  - intros [msg H].
    destruct (Nat.ltb_spec (length hs) 3); [lia|].
    destruct (Nat.ltb_spec (length ds) 2); [lia | discriminate].
  - intros H.
    destruct (Nat.ltb_spec (length hs) 3); [eauto|].
    destruct (Nat.ltb_spec (length ds) 2); [eauto | lia].
  - destruct (Nat.ltb_spec (length hs) 3); [discriminate | lia].
  - destruct (Nat.ltb_spec (length hs) 3); [discriminate|].
    destruct (Nat.ltb_spec (length ds) 2); [discriminate | lia].
  - intros [H1 H2].
    destruct (Nat.ltb_spec (length hs) 3); [lia|].
    destruct (Nat.ltb_spec (length ds) 2); [lia | reflexivity].
  - intros e.
    destruct (Nat.ltb_spec (length hs) 3); [intros [= <-]; eauto|].
    destruct (Nat.ltb_spec (length ds) 2); [intros [= <-]; eauto | discriminate].
Qed.

End AdFacts.

(** ** Creating and updating ads ([ad.py]) *)

Section AdMutations.
Import Py GoogleAds Ad.

Variable self : GoogleAdsAdIntegration.

Lemma prepare_final_urls (ad_group_id : string) (ad : AdData) :
  create_final_urls (_prepare_ad_group_ad self ad_group_id ad) = [url ad ++ utm].
Proof. reflexivity. Qed.

Lemma create_remote_calls (ad_group_id : string) (ad : AdData) :
  remote_calls (create_responsive_search_ad self ad_group_id ad)
  = match _validate_ad_input ad_group_id ad with
    | Return _ =>
        [MutateAdGroupAds (googleads_account_id self)
           [_prepare_ad_group_ad self ad_group_id ad]]
    | Raise _ => []
    end.
Proof.
  unfold create_responsive_search_ad.
  destruct (_validate_ad_input ad_group_id ad); [|reflexivity].
  destruct (mutate_ad_group_ads _ _ _); [reflexivity|].
  destruct (add_error self ex ad); reflexivity.
Qed.

(** C9: the operation built for an ad create carries exactly one final
    URL, the submitted URL followed by the fixed UTM suffix; the suffix
    is a constant that spells the placeholders with their braces; and
    whenever a create reaches the platform, it is with that operation
    alone. *)
Theorem create_final_url_is_url_plus_utm (ad_group_id : string) (ad : AdData) :
  create_final_urls (_prepare_ad_group_ad self ad_group_id ad) = [url ad ++ utm]
  /\ utm = "?utm_source=" ++ "google&utm_medium=cpc"
             ++ "&utm_campaign=" ++ "{{campaignid}}"
             ++ "&utm_term=" ++ "{{keyword}}"
             ++ "&utm_content=" ++ "{{creative}}"
  /\ (forall customer_id operations,
        MutateAdGroupAds customer_id operations
          ∈ remote_calls (create_responsive_search_ad self ad_group_id ad) ->
        exists operation,
          operations = [operation]
          /\ create_final_urls operation = [url ad ++ utm])
  /\ (forall customer_id operations,
        ~ MutateAds customer_id operations
            ∈ remote_calls (create_responsive_search_ad self ad_group_id ad)).
Proof.
  split; [reflexivity|]. split; [reflexivity|].
  rewrite create_remote_calls.
  destruct (_validate_ad_input ad_group_id ad); split; intros customer_id operations.
  - intros H; apply list_elem_of_singleton in H; injection H as _ ->.
    eexists; split; [reflexivity | apply prepare_final_urls].
  - intros H; apply list_elem_of_singleton in H; discriminate.
  - intros H; inversion H.
  - intros H; inversion H.
Qed.

(** The mask computed for an update, written out. *)
Lemma sent_update_mask_eq (googleads_ad_id : string) (config : AdUpdateConfig) :
  sent_update_mask self googleads_ad_id config
  = (["resource_name"]
     ++ (if set_and_nonempty (config_final_urls config) then ["final_urls"] else [])
     ++ (if set_and_nonempty (config_headlines config)
         then ["responsive_search_ad.headlines"] else [])
     ++ (if set_and_nonempty (config_descriptions config)
         then ["responsive_search_ad.descriptions"] else []))%list.
Proof.
  destruct config as [[[|h hs]|] [[|d ds]|] [[|u us]|]]; reflexivity.
Qed.

Lemma set_and_nonempty_true {A : Type} (field : option (list A)) :
  set_and_nonempty field = true <-> exists items, field = Some items /\ items <> [].
Proof.
  destruct field as [[|x xs]|]; simpl; split;
    try discriminate; try (intros (items & [= <-] & Hne); congruence);
    try (intros (items & [=] & _)).
  intros _; eexists; split; [reflexivity | discriminate].
Qed.

Lemma update_remote_calls (googleads_ad_id : string) (config : AdUpdateConfig) :
  remote_calls (_update_responsive_search_ad self googleads_ad_id config)
  = [MutateAds (googleads_account_id self)
       [ {| update := update_template self googleads_ad_id config;
            update_mask := sent_update_mask self googleads_ad_id config |} ]].
Proof.
  unfold _update_responsive_search_ad, _execute_update_operation, sent_update_mask.
  cbn [update].
  destruct (mutate_ads _ _ _); [reflexivity|].
  destruct (Errors.create_error _ _ _ _); reflexivity.
Qed.

(** C6 (amended): an update is sent with the mask computed from the
    whole template.  That mask always names [resource_name], which
    addresses the ad, and besides it names exactly the config sub-fields
    that are set to a non-empty list, each once; a sub-field that is
    omitted, or set to an empty list, is never named.  For a template
    with only headlines populated the diff is the single path of the
    headlines. *)
Theorem update_mask_names_nonempty_config_fields
    (googleads_ad_id : string) (config : AdUpdateConfig) :
  let mask := sent_update_mask self googleads_ad_id config in
  remote_calls (_update_responsive_search_ad self googleads_ad_id config)
  = [MutateAds (googleads_account_id self)
       [ {| update := update_template self googleads_ad_id config;
            update_mask := mask |} ]]
  /\ "resource_name" ∈ mask
  /\ ("responsive_search_ad.headlines" ∈ mask
        <-> exists hs, config_headlines config = Some hs /\ hs <> [])
  /\ ("responsive_search_ad.descriptions" ∈ mask
        <-> exists ds, config_descriptions config = Some ds /\ ds <> [])
  /\ ("final_urls" ∈ mask
        <-> exists urls, config_final_urls config = Some urls /\ urls <> [])
  /\ (forall p, p ∈ mask ->
        p = "resource_name" \/ p ∈ paths_set_in_config config)
  /\ NoDup mask
  /\ (forall h hs,
        field_mask
          {| ad_resource_name := "";
             final_urls := [];
             responsive_search_ad :=
               {| rsa_headlines := h :: hs; rsa_descriptions := [] |} |}
        = ["responsive_search_ad.headlines"]).
Proof.
  intros mask; subst mask.
  split; [apply update_remote_calls|].
  rewrite sent_update_mask_eq.
  rewrite <- !set_and_nonempty_true.
  unfold paths_set_in_config.
  destruct config as [hs ds us]; cbn [config_headlines config_descriptions config_final_urls].
  destruct hs as [[|h hs]|], ds as [[|d ds]|], us as [[|u us]|];
    cbn [set_and_nonempty app];
    split_and!;
    try solve [ intros; reflexivity
              | elem_found
              | split; [intros H; exfalso; elem_cases H | discriminate]
              | split; [reflexivity | intros _; elem_found]
              | intros p H; elem_cases H; subst p;
                first [left; reflexivity | right; elem_found]
              | repeat (apply NoDup_cons_2; [intros H; elem_cases H|]);
                apply NoDup_nil_2 ].
Qed.

(** The two update entry points go through the same mask. *)
Lemma update_ad_urls_mask (googleads_ad_id : string) (urls : list string) :
  sent_update_mask self googleads_ad_id
    {| config_headlines := None; config_descriptions := None;
       config_final_urls := Some urls |}
  = if truthy_list urls then ["resource_name"; "final_urls"] else ["resource_name"].
Proof. rewrite sent_update_mask_eq; destruct urls; reflexivity. Qed.

End AdMutations.

(** C6, as stated, fails: with only headlines configured the mask also
    names [resource_name], which the config does not set; and with the
    final URLs set to the empty list the mask does not name them. *)
Lemma update_mask_is_not_the_configured_fields :
  "resource_name" ∈ Ad.sent_update_mask Fixtures.ad_facade "333" Fixtures.only_headlines
  /\ ("resource_name" ∉ Ad.paths_set_in_config Fixtures.only_headlines)
  /\ Ad.sent_update_mask Fixtures.ad_facade "333" Fixtures.only_headlines <> ["headlines"]
  /\ "final_urls" ∈ Ad.paths_set_in_config Fixtures.emptied_urls
  /\ ("final_urls" ∉ Ad.sent_update_mask Fixtures.ad_facade "333" Fixtures.emptied_urls).
Proof.
  split_and!.
  - vm_compute; elem_found.
  - vm_compute; intros H; elem_cases H.
  - vm_compute; discriminate.
  - vm_compute; elem_found.
  - vm_compute; intros H; elem_cases H.
Qed.

(** ** Error normalization ([errors.py]) *)

Section ErrorFacts.
Import Py Errors.

(** Case analysis on every attribute slot that a goal inspects. *)
Ltac probe :=
  repeat (cbv beta iota delta [bind getattr hasattr first_item try_except
                               is_attribute_or_index_error];
          match goal with
          | |- context [match ?x with _ => _ end] =>
              lazymatch x with
              | match _ with _ => _ end => fail
              | _ => destruct x
              end
          end).

Lemma _extract_error_details_returns (ex : GoogleAdsException) :
  returns (_extract_error_details ex).
Proof.
  unfold returns, _extract_error_details, first_failure_item.
  probe; eexists; reflexivity.
Qed.

Lemma _extract_trigger_returns (ex : GoogleAdsException) :
  returns (_extract_trigger ex).
Proof.
  unfold returns, _extract_trigger, first_failure_item.
  probe; eexists; reflexivity.
Qed.

Lemma _extract_location_returns (ex : GoogleAdsException) :
  returns (_extract_location ex).
Proof.
  unfold returns, _extract_location, first_failure_item.
  probe; eexists; reflexivity.
Qed.

(** Errors whose location is unset leave the accumulator as it is. *)
Lemma extend_with_unset_locations (items : list FailureItem) (acc : list string) :
  Forall location_unset items ->
  extend_with_locations items acc = Return acc.
Proof.
  induction 1 as [|e items He _ IH]; simpl; [reflexivity|].
  destruct He as [He | (l & He & Hl)]; rewrite He; simpl; [exact IH|].
  rewrite Hl; simpl; rewrite app_nil_r; exact IH.
Qed.


Lemma create_error_returns_iff
    (ex : GoogleAdsException) (cls : string) (i ci : option string) :
  returns (create_error ex cls i ci)
  <-> returns (_extract_error_message ex)
      /\ returns (_extract_error_fields ex)
      /\ is_Some (request_id ex)
      /\ (exists err, error ex = Some err /\ is_Some (code_name err)).
Proof.
  unfold create_error.
  destruct (_extract_error_details_returns ex) as [d ->].
  destruct (_extract_trigger_returns ex) as [t ->].
  destruct (_extract_location_returns ex) as [l ->].
  destruct (_extract_error_message ex) as [m|e1]; simpl.
  2:{ split; [intros [a H]; discriminate | intros ([a H] & _); discriminate]. }
  destruct (_extract_error_fields ex) as [f|e2]; simpl.
  2:{ split; [intros [a H]; discriminate | intros (_ & [a H] & _); discriminate]. }
  destruct (request_id ex) as [rid|]; simpl.
  2:{ split; [intros [a H]; discriminate | intros (_ & _ & [a H] & _); discriminate]. }
  destruct (error ex) as [err|]; simpl.
  2:{ split; [intros [a H]; discriminate
             | intros (_ & _ & _ & (err & H & _)); discriminate]. }
  destruct (code_name err) as [code|] eqn:Hcode; simpl.
  - split; [intros _ | intros _; eexists; reflexivity].
    repeat split; try (eexists; reflexivity).
    exists err; split; [reflexivity | rewrite Hcode; eexists; reflexivity].
  - split; [intros [a H]; discriminate|].
    intros (_ & _ & _ & (err' & [= <-] & [c H])); congruence.
Qed.

(** X24: the details, trigger and location tiers are each wrapped in
    their own try/except and never raise.  When [ex.failure.errors[0]]
    cannot be read they fall back to [] / None / None, and a first error
    that lacks the attribute a tier reads makes that tier alone fall
    back.  The normalizer therefore returns exactly when the message and
    field-path tiers return and the request id and the error code can be
    read; and when every failure error has a location attribute that is
    unset ([None], or a location without elements), the field-path tier
    returns the empty list and the normalized record has no field
    path. *)
Theorem create_error_guarded_tiers
    (ex : GoogleAdsException) (cls : string) (i ci : option string) :
  returns (_extract_error_details ex)
  /\ returns (_extract_trigger ex)
  /\ returns (_extract_location ex)
  /\ (forall e,
        first_failure_item ex = Raise e ->
        _extract_error_details ex = Return []
        /\ _extract_trigger ex = Return None
        /\ _extract_location ex = Return None)
  /\ (forall first,
        first_failure_item ex = Return first ->
        (item_details first = None -> _extract_error_details ex = Return [])
        /\ (item_trigger first = None -> _extract_trigger ex = Return None)
        /\ (item_location first = None \/ item_location first = Some None ->
            _extract_location ex = Return None))
  /\ (returns (create_error ex cls i ci)
      <-> returns (_extract_error_message ex)
          /\ returns (_extract_error_fields ex)
          /\ is_Some (request_id ex)
          /\ (exists err, error ex = Some err /\ is_Some (code_name err)))
  /\ (forall items,
        failure ex = Some {| failure_errors := Some items |} ->
        Forall location_unset items ->
        _extract_error_fields ex = Return []
        /\ forall normalized,
             create_error ex cls i ci = Return normalized ->
             fields normalized = []).
Proof.
  split; [apply _extract_error_details_returns|].
  split; [apply _extract_trigger_returns|].
  split; [apply _extract_location_returns|].
  split.
  { intros e He.
    unfold _extract_error_details, _extract_trigger, _extract_location.
    rewrite He.
    unfold first_failure_item in He.
    cbv beta iota delta [bind getattr first_item] in He.
    destruct (failure ex) as [f|]; [destruct (failure_errors f) as [[|x xs]|]|];
      first [discriminate He | injection He as <-; split_and!; reflexivity]. }
  split.
  { intros first Hfirst.
    unfold _extract_error_details, _extract_trigger, _extract_location.
    rewrite Hfirst; cbn [bind].
    split_and!.
    - intros ->; reflexivity.
    - intros ->; reflexivity.
    - intros [-> | ->]; reflexivity. }
  split; [apply create_error_returns_iff|].
  intros items Hf Hall.
  assert (Hfields : _extract_error_fields ex = Return []).
  { unfold _extract_error_fields; rewrite Hf; simpl.
    apply extend_with_unset_locations, Hall. }
  split; [exact Hfields|].
  intros normalized; unfold create_error; rewrite Hfields.
  intros H.
  apply bind_return_inv in H as (m & _ & H); cbn [bind] in H.
  repeat (apply bind_return_inv in H as (? & _ & H)).
  injection H as <-; reflexivity.
Qed.

Lemma create_error_guarded_tiers_witness :
  (exists normalized,
     create_error Fixtures.ex_location_unset "Keyword" (Some "7") None = Return normalized
     /\ fields normalized = []
     /\ trigger normalized = Some "Gym")
  /\ _extract_location Fixtures.ex_location_missing = Return None
  /\ _extract_trigger (Fixtures.exception_with []) = Return None.
Proof.
  split_and!.
  - eexists; split; [reflexivity|]; split; [|reflexivity].
    destruct (create_error_guarded_tiers Fixtures.ex_location_unset
                "Keyword" (Some "7") None) as (_ & _ & _ & _ & _ & _ & H).
    eapply H; [reflexivity | repeat constructor; left; reflexivity | reflexivity].
  - destruct (create_error_guarded_tiers Fixtures.ex_location_missing
                "Keyword" (Some "7") None) as (_ & _ & _ & _ & H & _).
    destruct (H (Fixtures.item None) eq_refl) as (_ & _ & Hloc).
    apply Hloc; left; reflexivity.
  - destruct (create_error_guarded_tiers (Fixtures.exception_with [])
                "Keyword" (Some "7") None) as (_ & _ & _ & H & _).
    destruct (H IndexError eq_refl) as (_ & Htrigger & _).
    exact Htrigger.
Defined.

End ErrorFacts.


(** ** The keyword facade ([keywords.py]) *)

Section KeywordFacts.
Import Py GoogleAds Keywords.

Variable self : GoogleAdsKeywordIntegration.

Local Abbreviation operations_for := (built_operations self).

Lemma operations_for_length (is_negative : bool) :
  length (operations_for is_negative) = length (keywords self).
Proof. apply length_map. Qed.

Lemma validate_prerequisites_true :
  _validate_prerequisites self = true
  <-> keywords self <> [] /\ is_Some (client self).
Proof.
  unfold _validate_prerequisites.
  rewrite andb_true_iff, bool_decide_eq_true.
  destruct (keywords self); simpl; split; intros [H1 H2]; split;
    congruence || assumption.
Qed.

Lemma add_keywords_unfold (c : GoogleAdsClient) :
  client self = Some c -> keywords self <> [] ->
  add_keywords_to_googleads self
  = let call := {| call_customer_id := googleads_account_id self;
                   call_operations := operations_for false |} in
    match mutate_ad_group_criteria c (googleads_account_id self)
            (operations_for false) with
    | Responds response =>
        {| returned := _process_mutation_response self response false;
           self_after := self; remote_calls := [call] |}
    | Fails e =>
        {| returned := ReturnsTuple (HeadException e) [];
           self_after := self; remote_calls := [call] |}
    end.
Proof.
  intros Hc Hk.
  unfold add_keywords_to_googleads, _batch_mutate_keywords, _validate_prerequisites.
  rewrite Hc; destruct (keywords self) as [|k ks] eqn:Hks; [congruence|].
  assert (Hdec : bool_decide (is_Some (Some c)) = true)
    by (apply bool_decide_eq_true; eexists; reflexivity).
  rewrite Hdec; cbn [truthy_list andb negb].
  unfold built_operations; rewrite Hks; reflexivity.
Qed.

(** C1: when the platform answers a batch of N keyword operations with
    one result per operation, [add_keywords_to_googleads] returns N
    pairs, the i-th being the id of the i-th keyword with the resource
    name of the i-th result; the operations were submitted in keyword
    order in a single call, and the instance is left as it was. *)
Theorem add_keywords_pairs_by_position
    (c : GoogleAdsClient) (response : MutateResponse) :
  client self = Some c ->
  keywords self <> [] ->
  mutate_ad_group_criteria c (googleads_account_id self) (operations_for false)
    = Responds response ->
  length (results response) = length (operations_for false) ->
  exists pairs,
    returned (add_keywords_to_googleads self) = ReturnsTuple HeadNone pairs
    /\ pairs = zip (map id (keywords self)) (map resource_name (results response))
    /\ length pairs = length (keywords self)
    /\ (forall i keyword,
          keywords self !! i = Some keyword ->
          operations_for false !! i
            = Some (_create_base_criterion_operation self (text keyword) false)
          /\ exists result,
               results response !! i = Some result
               /\ pairs !! i = Some (id keyword, resource_name result))
    /\ self_after (add_keywords_to_googleads self) = self
    /\ remote_calls (add_keywords_to_googleads self)
       = [ {| call_customer_id := googleads_account_id self;
              call_operations := operations_for false |} ].
Proof.
  intros Hc Hk Hresp Hlen.
  rewrite (add_keywords_unfold c Hc Hk); cbn zeta; rewrite Hresp.
  cbn [returned self_after remote_calls]; unfold _process_mutation_response.
  rewrite operations_for_length in Hlen.
  eexists; split; [reflexivity|]; split; [reflexivity|].
  split; [|split; [|split; reflexivity]].
  - rewrite length_zip_with, !length_map; lia.
  - intros i keyword Hi; split.
    + unfold built_operations; rewrite list_lookup_fmap, Hi; reflexivity.
    + destruct (lookup_lt_is_Some_2 (results response) i) as [result Hr].
      { rewrite Hlen; eapply lookup_lt_Some; exact Hi. }
      exists result; split; [exact Hr|].
      rewrite lookup_zip_with, !list_lookup_fmap, Hi, Hr; reflexivity.
Qed.

(** C3 (amended): when the platform raises on a keyword batch add, the
    call makes that one remote call, propagates nothing and returns the
    caught exception paired with an empty result list; the instance,
    and so its error list, is left as it was.  The error list grows by
    exactly one normalized error when the returned exception is handed
    to [add_error]. *)
Theorem add_keywords_returns_caught_exception
    (c : GoogleAdsClient) (ex : Errors.GoogleAdsException) :
  client self = Some c ->
  keywords self <> [] ->
  mutate_ad_group_criteria c (googleads_account_id self) (operations_for false)
    = Fails ex ->
  returned (add_keywords_to_googleads self) = ReturnsTuple (HeadException ex) []
  /\ self_after (add_keywords_to_googleads self) = self
  /\ errors (self_after (add_keywords_to_googleads self)) = errors self
  /\ remote_calls (add_keywords_to_googleads self)
     = [ {| call_customer_id := googleads_account_id self;
            call_operations := operations_for false |} ]
  /\ (forall self', add_error self ex = Return self' ->
        length (errors self') = length (errors self) + 1
        /\ exists normalized,
             Errors.create_error ex "Keyword" (glitch_campaign_id self) None
               = Return normalized
             /\ errors self' = (errors self ++ [normalized])%list).
Proof.
  intros Hc Hk Hfail.
  rewrite (add_keywords_unfold c Hc Hk); cbn zeta; rewrite Hfail.
  cbn [returned self_after remote_calls].
  repeat split.
  - unfold add_error in H.
    apply bind_return_inv in H as (normalized & _ & [= <-]).
    cbn [errors]; rewrite length_app; reflexivity.
  - unfold add_error in H.
    apply bind_return_inv in H as (normalized & Hn & [= <-]).
    exists normalized; split; [exact Hn | reflexivity].
Qed.

(** C5: when the list of keyword operations is empty, that is, when the
    instance has no keyword to build an operation from, neither entry
    point reaches the platform: [add_keywords_to_googleads] and its
    negative twin return [None], the batch step returns a pair of empty
    lists, and the instance is left as it was. *)
Theorem empty_batch_is_a_no_op (is_negative : bool) :
  operations_for is_negative = [] ->
  add_keywords_to_googleads self
    = {| returned := ReturnsNone; self_after := self; remote_calls := [] |}
  /\ add_negative_keywords_to_googleads self
     = {| returned := ReturnsNone; self_after := self; remote_calls := [] |}
  /\ _batch_mutate_keywords self (operations_for is_negative) is_negative
     = {| returned := ReturnsTuple HeadEmptyList [];
          self_after := self; remote_calls := [] |}.
Proof.
  intros Hops.
  assert (Hk : keywords self = []).
  { apply (f_equal length) in Hops.
    rewrite operations_for_length in Hops.
    destruct (keywords self); [reflexivity | discriminate]. }
  unfold add_keywords_to_googleads, add_negative_keywords_to_googleads,
    _batch_mutate_keywords, _validate_prerequisites.
  rewrite Hk; repeat split.
Qed.

(** Without a client nothing is sent either. *)
Lemma no_client_no_call (operations : list AdGroupCriterionOperation)
    (is_negative : bool) :
  client self = None ->
  remote_calls (_batch_mutate_keywords self operations is_negative) = []
  /\ remote_calls (add_keywords_to_googleads self) = [].
Proof.
  intros Hc.
  unfold add_keywords_to_googleads, _batch_mutate_keywords, _validate_prerequisites.
  rewrite Hc; destruct (keywords self); split; reflexivity.
Qed.

(** The guard of the batch step looks at the instance's keywords, from
    which both entry points build the operations one for one. *)
Lemma batch_guard_is_on_keywords (c : GoogleAdsClient)
    (operations : list AdGroupCriterionOperation) (is_negative : bool) :
  client self = Some c ->
  (remote_calls (_batch_mutate_keywords self operations is_negative) = []
   <-> keywords self = []).
Proof.
  intros Hc; unfold _batch_mutate_keywords; rewrite Hc.
  destruct (keywords self); [split; reflexivity|].
  destruct (mutate_ad_group_criteria _ _ _); split; discriminate.
Qed.

(** The negative twin hands back a bare empty list on failure. *)
Lemma add_negative_keywords_on_failure
    (c : GoogleAdsClient) (ex : Errors.GoogleAdsException) :
  client self = Some c ->
  keywords self <> [] ->
  mutate_ad_group_criteria c (googleads_account_id self) (operations_for true)
    = Fails ex ->
  returned (add_negative_keywords_to_googleads self) = ReturnsList []
  /\ self_after (add_negative_keywords_to_googleads self) = self.
Proof.
  intros Hc Hk Hfail.
  unfold add_negative_keywords_to_googleads, _batch_mutate_keywords,
    _validate_prerequisites.
  rewrite Hc; destruct (keywords self) as [|k ks] eqn:Hks; [congruence|].
  assert (Hdec : bool_decide (is_Some (Some c)) = true)
    by (apply bool_decide_eq_true; eexists; reflexivity).
  rewrite Hdec; cbn [truthy_list andb negb].
  unfold built_operations in Hfail; rewrite Hks in Hfail; rewrite Hfail.
  split; reflexivity.
Qed.

End KeywordFacts.

Lemma add_keywords_pairs_by_position_witness :
  Keywords.returned
    (Keywords.add_keywords_to_googleads
       (Fixtures.keyword_facade (Some Fixtures.accepting_keywords) Fixtures.three_keywords))
  = Keywords.ReturnsTuple Keywords.HeadNone
      [ (11%Z, "customers/1/adGroupCriteria/9~0");
        (12%Z, "customers/1/adGroupCriteria/9~1");
        (13%Z, "customers/1/adGroupCriteria/9~2") ].
Proof.
  destruct (add_keywords_pairs_by_position
              (Fixtures.keyword_facade (Some Fixtures.accepting_keywords)
                 Fixtures.three_keywords)
              Fixtures.accepting_keywords
              {| GoogleAds.results := map Fixtures.criterion_name (seq 0 3) |})
    as (pairs & Hret & Hpairs & _).
  - reflexivity.
  - discriminate.
  - reflexivity.
  - reflexivity.
  - rewrite Hret, Hpairs; reflexivity.
Defined.

Lemma add_keywords_returns_caught_exception_witness :
  Keywords.returned
    (Keywords.add_keywords_to_googleads
       (Fixtures.keyword_facade
          (Some (Fixtures.rejecting_keywords Fixtures.ex_location_set))
          Fixtures.three_keywords))
  = Keywords.ReturnsTuple (Keywords.HeadException Fixtures.ex_location_set) [].
Proof.
  apply (add_keywords_returns_caught_exception
           (Fixtures.keyword_facade
              (Some (Fixtures.rejecting_keywords Fixtures.ex_location_set))
              Fixtures.three_keywords)
           (Fixtures.rejecting_keywords Fixtures.ex_location_set)
           Fixtures.ex_location_set).
  - reflexivity.
  - discriminate.
  - reflexivity.
Defined.

(** C3, as stated, fails: three keyword creates rejected by the platform
    leave the error list at its length, and the call returns a pair
    holding the exception, neither [None] nor an empty list. *)
Lemma add_keywords_failure_appends_nothing :
  let self := Fixtures.keyword_facade
                (Some (Fixtures.rejecting_keywords Fixtures.ex_location_set))
                Fixtures.three_keywords in
  let run := Keywords.add_keywords_to_googleads self in
  length (Keywords.errors (Keywords.self_after run)) = length (Keywords.errors self)
  /\ length (Keywords.errors (Keywords.self_after run))
     <> length (Keywords.errors self) + 1
  /\ Keywords.returned run
     = Keywords.ReturnsTuple (Keywords.HeadException Fixtures.ex_location_set) []
  /\ Keywords.returned run <> Keywords.ReturnsNone
  /\ Keywords.returned run <> Keywords.ReturnsList [].
Proof.
  cbv zeta; split_and!; try reflexivity; vm_compute; discriminate.
Qed.

Lemma empty_batch_is_a_no_op_witness :
  Keywords.add_keywords_to_googleads
    (Fixtures.keyword_facade (Some Fixtures.accepting_keywords) [])
  = {| Keywords.returned := Keywords.ReturnsNone;
       Keywords.self_after := Fixtures.keyword_facade (Some Fixtures.accepting_keywords) [];
       Keywords.remote_calls := [] |}.
Proof.
  apply (empty_batch_is_a_no_op
           (Fixtures.keyword_facade (Some Fixtures.accepting_keywords) []) false).
  reflexivity.
Defined.

(** ** Output constraints and the generation loop ([llm_services.py]) *)

Section OutputConstraintFacts.
Import Py LLM.

Variable word_char : ascii -> bool.
Variable space_char : ascii -> bool.

(** What the proofs use of the interpreter's tables: letters and digits
    are word characters, the blank and the line feed are whitespace. *)
Hypothesis class_is_kept :
  forall c, alnum_or_blank c = true -> word_char c || space_char c = true.
Hypothesis line_feed_is_space : space_char line_feed = true.

Local Abbreviation check := (llm_output_constraint_check word_char space_char).
Local Abbreviation strip := (remove_special word_char space_char).

Lemma remove_special_length (v : string) :
  String.length (strip v) <= String.length v.
Proof.
  induction v as [|c v IH]; simpl; [lia|].
  destruct (negb (word_char c || space_char c)); simpl; lia.
Qed.

Lemma remove_special_filter (v : string) :
  list_ascii_of_string (strip v)
  = List.filter (fun c => word_char c || space_char c) (list_ascii_of_string v).
Proof.
  induction v as [|c v IH]; simpl; [reflexivity|].
  destruct (word_char c || space_char c); simpl; [f_equal|]; exact IH.
Qed.

Lemma consists_of_pattern_match (v : string) :
  consists_of alnum_or_blank v = true -> pattern_match v = true.
Proof.
  induction v as [|c v IH]; simpl; [reflexivity|].
  intros H; apply andb_true_iff in H as [Hc Hv].
  rewrite Hc; apply IH, Hv.
Qed.

(** A text that passes the pattern has nothing to remove. *)
Lemma pattern_match_nothing_to_remove (v : string) :
  pattern_match v = true -> strip v = v.
Proof.
  induction v as [|c v IH]; simpl; [reflexivity|].
  destruct (alnum_or_blank c) eqn:Hc.
  - intros Hv; rewrite (class_is_kept c Hc); simpl; f_equal; apply IH, Hv.
  - intros H; apply andb_true_iff in H as [Hlf Hrest].
    apply Ascii.eqb_eq in Hlf; subst c.
    destruct v; [|discriminate].
    rewrite line_feed_is_space, orb_true_r; reflexivity.
Qed.

(** C10: the check raises [ValueError] exactly when the text is longer
    than the bound and raises nothing else; within the bound, a text of
    ASCII letters, digits and blanks is returned unchanged, and any
    other text is returned with exactly the characters that are neither
    word characters nor whitespace removed; whatever is returned fits
    the bound. *)
Theorem llm_output_constraint_check_spec (v : string) (length : Z) :
  ((exists msg, check v length = Raise (ValueError msg))
     <-> (length < Z.of_nat (String.length v))%Z)
  /\ (forall e, check v length = Raise e -> exists msg, e = ValueError msg)
  /\ ((Z.of_nat (String.length v) <= length)%Z ->
        (consists_of alnum_or_blank v = true -> check v length = Return v)
        /\ (consists_of alnum_or_blank v = false ->
              check v length = Return (strip v)))
  /\ (forall r, check v length = Return r ->
        (Z.of_nat (String.length r) <= length)%Z)
  /\ list_ascii_of_string (strip v)
     = List.filter (fun c => word_char c || space_char c) (list_ascii_of_string v).
Proof.
  unfold llm_output_constraint_check.
  destruct (Z.ltb_spec length (Z.of_nat (String.length v))) as [Hlong|Hfits].
  - split_and!.
    + split; [intros _; exact Hlong | intros _; eexists; reflexivity].
    + intros e [= <-]; eexists; reflexivity.
    + intros H; lia.
    + intros r H; discriminate.
    + apply remove_special_filter.
  - split_and!.
    + split; [|intros H; lia].
      intros [msg H]; destruct (pattern_match v); discriminate.
    + intros e H; destruct (pattern_match v); discriminate.
    + intros _; split; intros Hv.
      * rewrite (consists_of_pattern_match v Hv); reflexivity.
      * destruct (pattern_match v) eqn:Hp; simpl; [|reflexivity].
        rewrite (pattern_match_nothing_to_remove v Hp); reflexivity.
    + intros r; destruct (pattern_match v); simpl; intros [= <-]; [lia|].
      pose proof (remove_special_length v); lia.
    + apply remove_special_filter.
Qed.

End OutputConstraintFacts.

Lemma ascii_tables_keep_class (c : ascii) :
  LLM.alnum_or_blank c = true -> Fixtures.ascii_word c || Fixtures.ascii_space c = true.
Proof.
  destruct c as [[] [] [] [] [] [] [] []]; vm_compute; intros H;
    first [reflexivity | discriminate].
Qed.

Lemma llm_output_constraint_check_spec_witness :
  LLM.llm_output_constraint_check Fixtures.ascii_word Fixtures.ascii_space
    "Gym Software" 25
  = Py.Return "Gym Software"
  /\ LLM.llm_output_constraint_check Fixtures.ascii_word Fixtures.ascii_space
       "Gym: Software!" 25
     = Py.Return "Gym Software".
Proof.
  split.
  - destruct (llm_output_constraint_check_spec Fixtures.ascii_word Fixtures.ascii_space
                ascii_tables_keep_class eq_refl "Gym Software" 25)
      as (_ & _ & H & _).
    destruct H as [H _]; [vm_compute; discriminate|].
    apply H; reflexivity.
  - destruct (llm_output_constraint_check_spec Fixtures.ascii_word Fixtures.ascii_space
                ascii_tables_keep_class eq_refl "Gym: Software!" 25)
      as (_ & _ & H & _).
    destruct H as [_ H]; [vm_compute; discriminate|].
    rewrite H; reflexivity.
Defined.

Section GenerationLoopFacts.
Import Py LLM.

Variable service : GenerativeService.
Variables content keyword : string.
Variable max_retries : Z.
Variable existing_headlines : list string.

Local Abbreviation all_rejected :=
  (rejects_all service content keyword max_retries existing_headlines).

Local Abbreviation rejected :=
  (answer_rejected service content keyword max_retries existing_headlines).

Lemma acceptable_iff (headline : string) :
  acceptable existing_headlines headline = true
  <-> String.length headline <= 29 /\ ~ headline ∈ existing_headlines.
Proof.
  unfold acceptable.
  rewrite andb_true_iff, Nat.leb_le, negb_true_iff.
  assert (Hmem : existsb (String.eqb headline) existing_headlines = true
                 <-> headline ∈ existing_headlines).
  { rewrite existsb_exists; split.
    - intros (x & Hin & Heq); apply String.eqb_eq in Heq; subst x.
      apply list_elem_of_In, Hin.
    - intros Hin; exists headline; split;
        [apply list_elem_of_In, Hin | apply String.eqb_refl]. }
  split; intros [Hlen Hnot]; split; try exact Hlen.
  - rewrite <- Hmem, Hnot; discriminate.
  - destruct (existsb _ _); [exfalso; apply Hnot, Hmem; reflexivity | reflexivity].
Qed.

Lemma acceptable_false_iff (headline : string) :
  acceptable existing_headlines headline = false
  <-> ~ passes existing_headlines headline.
Proof.
  unfold passes; rewrite <- acceptable_iff.
  destruct (acceptable existing_headlines headline); split;
    congruence || (intros H; exfalso; apply H; reflexivity) || discriminate.
Qed.

Lemma all_acceptable_false_iff (candidates : list string) :
  Forall (fun h => acceptable existing_headlines h = false) candidates
  <-> Forall (fun candidate => ~ passes existing_headlines candidate) candidates.
Proof.
  split; intros H; eapply Forall_impl; try exact H;
    intros h Hh; apply acceptable_false_iff, Hh.
Qed.

(** The inner loop returns the first candidate that passes. *)
Lemma first_acceptable_Some (candidates : list string) (headline : string) :
  first_acceptable existing_headlines candidates = Some headline
  <-> exists before after,
        candidates = (before ++ headline :: after)%list
        /\ Forall (fun h => acceptable existing_headlines h = false) before
        /\ acceptable existing_headlines headline = true.
Proof.
  induction candidates as [|h rest IH]; simpl.
  - split; [discriminate | intros ([|? ?] & after & H & _); discriminate].
  - destruct (acceptable existing_headlines h) eqn:Hh.
    + split.
      * intros [= <-]; exists [], rest; repeat split; [constructor | exact Hh].
      * intros ([|b before] & after & Heq & Hall & Hacc);
          injection Heq as -> ->; [reflexivity|].
        inversion Hall; congruence.
    + rewrite IH; split.
      * intros (before & after & -> & Hall & Hacc).
        exists (h :: before), after; repeat split;
          [constructor; assumption | exact Hacc].
      * intros ([|b before] & after & Heq & Hall & Hacc);
          injection Heq as -> ->; [congruence|].
        inversion Hall; subst; exists before, after; repeat split; assumption.
Qed.

Lemma first_acceptable_None (candidates : list string) :
  first_acceptable existing_headlines candidates = None
  <-> Forall (fun h => acceptable existing_headlines h = false) candidates.
Proof.
  induction candidates as [|h rest IH]; simpl; [split; [constructor | reflexivity]|].
  destruct (acceptable existing_headlines h) eqn:Hh.
  - split; [discriminate | inversion 1; congruence].
  - rewrite IH; split; [constructor; assumption | inversion 1; assumption].
Qed.

(** The inner loop against the spec's words: it yields a headline
    exactly when that headline is the first passing candidate. *)
Lemma first_acceptable_first_passing (candidates : list string) (headline : string) :
  first_acceptable existing_headlines candidates = Some headline
  <-> first_passing existing_headlines candidates headline.
Proof.
  rewrite first_acceptable_Some; unfold first_passing; split;
    intros (before & after & Heq & Hall & Hok); exists before, after;
    (split; [exact Heq|]); split;
    first [apply all_acceptable_false_iff, Hall
          | apply acceptable_iff, Hok].
Qed.

Lemma all_rejected_iff (i : nat) : all_rejected i <-> rejected i.
Proof.
  unfold rejects_all, answer_rejected; split; intros (response & Hs & H);
    exists response; (split; [exact Hs|]).
  - apply all_acceptable_false_iff, first_acceptable_None, H.
  - apply first_acceptable_None, all_acceptable_false_iff, H.
Qed.

(** The outer loop, started after [made] requests with [remaining]
    iterations to go. *)
Lemma attempts_accepts (remaining made i : nat)
    (response : AdKeywordHeadlines) (headline : string) :
  made <= i < made + remaining ->
  (forall j, made <= j < i -> all_rejected j) ->
  service content keyword max_retries i = Return response ->
  first_acceptable existing_headlines (headlines response) = Some headline ->
  attempts service content keyword max_retries existing_headlines remaining made
  = (Return {| LLM.keyword := keyword; LLM.headline := headline |}, S i).
Proof.
  revert made; induction remaining as [|remaining IH]; intros made Hi Hrej Hs Hacc;
    [lia|]; simpl.
  destruct (decide (made = i)) as [->|Hne].
  - rewrite Hs, Hacc; reflexivity.
  - destruct (Hrej made) as (r & -> & ->); [lia|].
    apply IH; [lia | intros j Hj; apply Hrej; lia | exact Hs | exact Hacc].
Qed.

Lemma attempts_exhausted (remaining made : nat) :
  (forall j, made <= j < made + remaining -> all_rejected j) ->
  attempts service content keyword max_retries existing_headlines remaining made
  = (Raise (exhausted max_retries), made + remaining).
Proof.
  revert made; induction remaining as [|remaining IH]; intros made Hrej; simpl.
  - rewrite Nat.add_0_r; reflexivity.
  - destruct (Hrej made) as (r & -> & ->); [lia|].
    rewrite IH; [f_equal; lia | intros j Hj; apply Hrej; lia].
Qed.

Lemma attempts_returned (remaining made : nat) (r : AdKeywordHeadline) (n : nat) :
  attempts service content keyword max_retries existing_headlines remaining made
    = (Return r, n) ->
  exists i response,
    n = S i /\ made <= i < made + remaining
    /\ (forall j, made <= j < i -> all_rejected j)
    /\ service content keyword max_retries i = Return response
    /\ first_acceptable existing_headlines (headlines response)
       = Some (LLM.headline r)
    /\ LLM.keyword r = keyword.
Proof.
  revert made; induction remaining as [|remaining IH]; intros made; simpl;
    [discriminate|].
  destruct (service content keyword max_retries made) as [response|e] eqn:Hs;
    [|discriminate].
  destruct (first_acceptable existing_headlines (headlines response))
    as [headline|] eqn:Hacc.
  - intros [= <- <-]; exists made, response; split_and!;
      try lia; try assumption; try reflexivity.
  - intros H; apply IH in H as (i & response' & -> & Hi & Hrej & Hs' & Hacc' & Hk).
    exists i, response'; split_and!; try lia; try assumption; try reflexivity.
    intros j Hj; destruct (decide (j = made)) as [->|Hne];
      [exists response; split; assumption | apply Hrej; lia].
Qed.

Lemma attempts_raised_exhausted (remaining made n : nat) :
  (forall j, made <= j < made + remaining ->
     exists response, service content keyword max_retries j = Return response) ->
  attempts service content keyword max_retries existing_headlines remaining made
    = (Raise (exhausted max_retries), n) ->
  n = made + remaining
  /\ forall j, made <= j < made + remaining -> all_rejected j.
Proof.
  revert made; induction remaining as [|remaining IH]; intros made Hans; simpl.
  - intros [= <-]; split; [lia | intros j Hj; lia].
  - destruct (Hans made) as (response & Hs); [lia|]; rewrite Hs.
    destruct (first_acceptable existing_headlines (headlines response)) eqn:Hacc;
      [discriminate|].
    intros H; apply IH in H as [-> Hrej]; [|intros j Hj; apply Hans; lia].
    split; [lia|].
    intros j Hj; destruct (decide (j = made)) as [->|Hne];
      [exists response; split; assumption | apply Hrej; lia].
Qed.

Local Abbreviation run :=
  (gen_ad_keyword_headline service content keyword max_retries existing_headlines).

(** C4: a candidate passes the check of the code exactly when it has at
    most 29 characters and is not among the existing headlines.  Whenever
    the loop returns, it returns the first passing candidate of the first
    answer that has one, every candidate before it in that answer and
    every candidate of every earlier answer being rejected, after as many
    requests as that takes and never more than [max_retries]; and it does
    return that candidate whenever such an answer comes within the bound.
    When no candidate of any answer within the bound passes it raises the
    generation failure after [max_retries] requests and returns no text;
    and that failure is raised only then.  The bound defaults to 5. *)
Theorem gen_ad_keyword_headline_spec :
  (forall headline,
     acceptable existing_headlines headline = true
     <-> String.length headline <= 29 /\ ~ headline ∈ existing_headlines)
  /\ (forall r n,
        run = (Return r, n) ->
        String.length (LLM.headline r) <= 29
        /\ ~ LLM.headline r ∈ existing_headlines
        /\ LLM.keyword r = keyword
        /\ (0 < Z.of_nat n <= max_retries)%Z
        /\ exists i response,
             n = S i
             /\ (forall j, j < i -> rejected j)
             /\ service content keyword max_retries i = Return response
             /\ first_passing existing_headlines (headlines response)
                  (LLM.headline r))
  /\ (forall i response headline,
        (Z.of_nat i < max_retries)%Z ->
        (forall j, j < i -> rejected j) ->
        service content keyword max_retries i = Return response ->
        first_passing existing_headlines (headlines response) headline ->
        run = (Return {| LLM.keyword := keyword; LLM.headline := headline |}, S i))
  /\ ((forall j, (Z.of_nat j < max_retries)%Z -> rejected j) ->
        run = (Raise (exhausted max_retries), Z.to_nat max_retries))
  /\ (forall n,
        (forall j, (Z.of_nat j < max_retries)%Z ->
           exists response,
             service content keyword max_retries j = Return response) ->
        run = (Raise (exhausted max_retries), n) ->
        n = Z.to_nat max_retries
        /\ forall j, (Z.of_nat j < max_retries)%Z -> rejected j)
  /\ gen_ad_keyword_headline_default service content keyword
     = gen_ad_keyword_headline service content keyword 5 [].
Proof.
  unfold gen_ad_keyword_headline; split_and!.
  - apply acceptable_iff.
  - intros r n H.
    apply attempts_returned in H as (i & response & -> & Hi & Hrej & Hs & Hacc & Hk).
    pose proof Hacc as Hfirst.
    apply first_acceptable_Some in Hfirst as (before & after & _ & _ & Hok).
    apply acceptable_iff in Hok as [Hlen Hnew].
    split_and!; try assumption; try lia.
    exists i, response; split_and!; try assumption; try reflexivity.
    + intros j Hj; apply all_rejected_iff, Hrej; lia.
    + apply first_acceptable_first_passing, Hacc.
  - intros i response headline Hi Hrej Hs Hacc.
    apply (attempts_accepts _ _ i response); try assumption; try lia.
    + intros j Hj; apply all_rejected_iff, Hrej; lia.
    + apply first_acceptable_first_passing, Hacc.
  - intros Hrej; rewrite attempts_exhausted; [reflexivity|].
    intros j Hj; apply all_rejected_iff, Hrej; lia.
  - intros n Hans H.
    apply attempts_raised_exhausted in H as [-> Hrej].
    + split; [lia | intros j Hj; apply all_rejected_iff, Hrej; lia].
    + intros j Hj; apply Hans; lia.
  - reflexivity.
Qed.

End GenerationLoopFacts.

Lemma gen_ad_keyword_headline_spec_witness :
  LLM.gen_ad_keyword_headline
    (Fixtures.scripted
       [ ["Gym Software For Every Fitness Center"];
         ["Gym Management Software Suite Pro"; "Gym Software"; "Gym Apps"] ])
    "We are a SAAS Gym Company" "Gym" 2 []
  = (Py.Return {| LLM.keyword := "Gym"; LLM.headline := "Gym Software" |}, 2)
  /\ LLM.gen_ad_keyword_headline
       (Fixtures.scripted
          [ ["Gym Software"; "Gym Management Software Suite Pro"; "Gym Apps"] ])
       "We are a SAAS Gym Company" "Gym" 2 ["Gym Software"]
     = (Py.Return {| LLM.keyword := "Gym"; LLM.headline := "Gym Apps" |}, 1)
  /\ LLM.gen_ad_keyword_headline
       (Fixtures.scripted [ ["Gym Software For Every Fitness Center"];
                            ["Gym Software"; "Gym Management Software Suite Pro"] ])
       "We are a SAAS Gym Company" "Gym" 2 ["Gym Software"]
     = (Py.Raise (LLM.exhausted 2), 2).
Proof.
  assert (Hlong : forall existing,
            ~ LLM.passes existing "Gym Software For Every Fitness Center").
  { intros existing [Hlen _]; simpl in Hlen; lia. }
  assert (Hsuite : forall existing,
            ~ LLM.passes existing "Gym Management Software Suite Pro").
  { intros existing [Hlen _]; simpl in Hlen; lia. }
  assert (Hused : ~ LLM.passes ["Gym Software"] "Gym Software").
  { intros [_ Hnew]; apply Hnew; elem_found. }
  split_and!.
  - destruct (gen_ad_keyword_headline_spec
                (Fixtures.scripted
                   [ ["Gym Software For Every Fitness Center"];
                     ["Gym Management Software Suite Pro"; "Gym Software";
                      "Gym Apps"] ])
                "We are a SAAS Gym Company" "Gym" 2 []) as (_ & _ & H & _).
    apply (H 1 {| LLM.response_keyword := "Gym";
                  LLM.headlines := ["Gym Management Software Suite Pro";
                                    "Gym Software"; "Gym Apps"] |}).
    + lia.
    + intros j Hj; assert (j = 0) as -> by lia.
      eexists; split; [reflexivity|]; simpl.
      repeat constructor; apply Hlong.
    + reflexivity.
    + exists ["Gym Management Software Suite Pro"], ["Gym Apps"]; split_and!.
      * reflexivity.
      * repeat constructor; apply Hsuite.
      * split; [simpl; lia | intros Hin; elem_cases Hin].
  - destruct (gen_ad_keyword_headline_spec
                (Fixtures.scripted
                   [ ["Gym Software"; "Gym Management Software Suite Pro";
                      "Gym Apps"] ])
                "We are a SAAS Gym Company" "Gym" 2 ["Gym Software"])
      as (_ & _ & H & _).
    apply (H 0 {| LLM.response_keyword := "Gym";
                  LLM.headlines := ["Gym Software";
                                    "Gym Management Software Suite Pro";
                                    "Gym Apps"] |}).
    + lia.
    + intros j Hj; lia.
    + reflexivity.
    + exists ["Gym Software"; "Gym Management Software Suite Pro"], []; split_and!.
      * reflexivity.
      * repeat constructor; [apply Hused | apply Hsuite].
      * split; [simpl; lia | intros Hin; elem_cases Hin].
  - destruct (gen_ad_keyword_headline_spec
                (Fixtures.scripted
                   [ ["Gym Software For Every Fitness Center"];
                     ["Gym Software"; "Gym Management Software Suite Pro"] ])
                "We are a SAAS Gym Company" "Gym" 2 ["Gym Software"])
      as (_ & _ & _ & H & _).
    apply H.
    intros j Hj.
    assert (j = 0 \/ j = 1) as [-> | ->] by lia;
      (eexists; split; [reflexivity|]; simpl; repeat constructor);
      first [apply Hlong | apply Hused | apply Hsuite].
Defined.

(** ** Worked examples *)

Example create_gym_ad :
  let run := Ad.create_responsive_search_ad Fixtures.ad_facade "22" Fixtures.gym_ad in
  Ad.outcome run = Py.Return (Some "22~333")
  /\ Ad.remote_calls run
     = [ Ad.MutateAdGroupAds (Some "1")
           [ Ad._prepare_ad_group_ad Fixtures.ad_facade "22" Fixtures.gym_ad ] ]
  /\ Ad.create_final_urls (Ad._prepare_ad_group_ad Fixtures.ad_facade "22" Fixtures.gym_ad)
     = [ "https://gym.example?utm_source=google&utm_medium=cpc&utm_campaign={{campaignid}}&utm_term={{keyword}}&utm_content={{creative}}" ]
  /\ Ad.create_ad_group (Ad._prepare_ad_group_ad Fixtures.ad_facade "22" Fixtures.gym_ad)
     = "customers/1/adGroups/22".
Proof. cbv zeta; split_and!; reflexivity. Qed.

Example composite_id_extraction :
  Ad.first_ad_group_ad_id "customers/1/adGroupAds/22~333" = Py.Return "22~333"
  /\ Ad.first_ad_group_ad_id "customers/1/adGroupAds/22" = Py.Raise Py.IndexError
  /\ Ad.first_ad_group_ad_id "adGroupAds/~1 adGroupAds/4~5x" = Py.Return "4~5".
Proof. split_and!; reflexivity. Qed.

Example validate_url_cases :
  Ad.validate_url "https://x" = Py.Return tt
  /\ Ad.validate_url "http://x" = Py.Return tt
  /\ Ad.validate_url "ftp://x"
     = Py.Raise (Py.ValueError "Invalid URL format. Must start with http:// or https://")
  /\ Ad.validate_url ""
     = Py.Raise (Py.ValueError "Invalid URL format. Must start with http:// or https://").
Proof. split_and!; reflexivity. Qed.

Example match_type_cases :
  Keywords.match_type_mapping_get "EXACT" = Keywords.EXACT
  /\ Keywords.match_type_mapping_get "PHRASE" = Keywords.PHRASE
  /\ Keywords.match_type_mapping_get "BROAD" = Keywords.BROAD
  /\ Keywords.match_type_mapping_get "exact" = Keywords.BROAD.
Proof. split_and!; reflexivity. Qed.

Example pattern_cases :
  LLM.pattern_match "Gym Software 24" = true
  /\ LLM.pattern_match (String.append "Gym" (String LLM.line_feed EmptyString)) = true
  /\ LLM.pattern_match (String.append "Gym" (String LLM.line_feed "s")) = false
  /\ LLM.pattern_match "Gym: Software!" = false
  /\ LLM.llm_output_constraint_check Fixtures.ascii_word Fixtures.ascii_space
       "Gym Software For Every Fitness Center" 25
     = Py.Raise (Py.ValueError "Text must be less than 25 characters").
Proof. split_and!; reflexivity. Qed.

Example update_sends_mask :
  Ad.remote_calls
    (Ad.update_ad_urls Fixtures.ad_facade "333" ["https://gym.example/plans"])
  = [ Ad.MutateAds (Some "1")
        [ {| Ad.update :=
               {| Ad.ad_resource_name := "customers/1/ads/333";
                  Ad.final_urls := ["https://gym.example/plans"];
                  Ad.responsive_search_ad :=
                    {| Ad.rsa_headlines := []; Ad.rsa_descriptions := [] |} |};
             Ad.update_mask := ["resource_name"; "final_urls"] |} ] ].
Proof. reflexivity. Qed.

(** ** Further properties of the error normalizer ([errors.py]) *)

Section MoreErrorFacts.
Import Py Errors.

Lemma extend_with_locations_accumulates (items : list FailureItem) (acc : list string) :
  extend_with_locations items acc
  = (suffix <- extend_with_locations items [] ;; Return (acc ++ suffix)%list).
Proof.
  revert acc; induction items as [|e items IH]; intros acc; simpl.
  - rewrite app_nil_r; reflexivity.
  - destruct (item_location e) as [[l|]|]; simpl; [| apply IH | reflexivity].
    destruct (field_path_elements l) as [elements|]; simpl; [|reflexivity].
    destruct (field_names elements) as [ns|err]; simpl; [|reflexivity].
    rewrite (IH (acc ++ ns)%list), (IH ns).
    destruct (extend_with_locations items []); simpl; [|reflexivity].
    rewrite app_assoc; reflexivity.
Qed.

Lemma extend_with_locations_app (a b : list FailureItem) (acc : list string) :
  extend_with_locations (a ++ b) acc
  = (mid <- extend_with_locations a acc ;; extend_with_locations b mid).
Proof.
  revert acc; induction a as [|e a IH]; intros acc; simpl; [reflexivity|].
  destruct (item_location e) as [[l|]|]; simpl; [| apply IH | reflexivity].
  destruct (field_path_elements l) as [elements|]; simpl; [|reflexivity].
  destruct (field_names elements) as [ns|err]; simpl; [apply IH | reflexivity].
Qed.

Lemma field_names_of_named (names : list string) :
  field_names (map (fun n => {| field_name := Some n |}) names) = Return names.
Proof.
  induction names as [|n names IH]; simpl; [reflexivity|].
  rewrite IH; reflexivity.
Qed.

(** X1: without policy-violation details the extracted message is the
    [details] attribute of the error whenever that attribute exists, and
    the [message] attribute (or the empty string) only when it does not;
    with policy-violation details it is their external policy name. *)
Theorem extract_error_message_priority (ex : GoogleAdsException) (err : RpcError) :
  error ex = Some err ->
  (forall pvd,
     policy_violation_details err = Some pvd ->
     _extract_error_message ex
     = getattr "external_policy_name" (external_policy_name pvd))
  /\ (policy_violation_details err = None ->
      _extract_error_message ex
      = Return (match rpc_details err with
                | Some d => d
                | None => getattr_default (rpc_message err) ""
                end)).
Proof.
  intros Herr; unfold _extract_error_message; rewrite Herr; simpl; split.
  - intros pvd ->; reflexivity.
  - intros ->; simpl.
    destruct (rpc_message err) as [[|c m]|], (rpc_details err) as [d|]; reflexivity.
Qed.

Lemma extract_error_message_priority_witness :
  Errors._extract_error_message Fixtures.ex_location_set = Return "Too long.".
Proof.
  destruct (extract_error_message_priority Fixtures.ex_location_set
              {| code_name := Some "INVALID_ARGUMENT";
                 policy_violation_details := None;
                 rpc_message := Some "Request contains an invalid argument.";
                 rpc_details := Some "Too long." |} eq_refl) as [_ H].
  apply H; reflexivity.
Defined.

(** X2: the field paths of a failure are those of its errors, in order:
    an error whose location lists elements named [names] contributes
    exactly [names], and the field paths of two lists of errors put
    together are the field paths of the first followed by those of the
    second. *)
Theorem error_fields_concatenate
    (ex1 ex2 ex12 : GoogleAdsException) (a b : list FailureItem)
    (fa fb : list string) :
  failure ex1 = Some {| failure_errors := Some a |} ->
  failure ex2 = Some {| failure_errors := Some b |} ->
  failure ex12 = Some {| failure_errors := Some (a ++ b)%list |} ->
  _extract_error_fields ex1 = Return fa ->
  _extract_error_fields ex2 = Return fb ->
  _extract_error_fields ex12 = Return (fa ++ fb)%list
  /\ (forall names trig det,
        a = [ {| item_location :=
                   Some (Some {| field_path_elements :=
                                   Some (map (fun n => {| field_name := Some n |}) names) |});
                 item_trigger := trig;
                 item_details := det |} ] ->
        fa = names).
Proof.
  unfold _extract_error_fields; intros -> -> ->; simpl; intros Ha Hb; split.
  - rewrite extend_with_locations_app, Ha; simpl.
    rewrite extend_with_locations_accumulates, Hb; reflexivity.
  - intros names trig det ->; simpl in Ha.
    rewrite field_names_of_named in Ha; simpl in Ha.
    injection Ha as <-; reflexivity.
Qed.

Lemma error_fields_concatenate_witness :
  Errors._extract_error_fields
    (Fixtures.exception_with
       [ Fixtures.item (Some None);
         Fixtures.item
           (Some (Some {| field_path_elements :=
                            Some [ {| field_name := Some "operations" |};
                                   {| field_name := Some "create" |} ] |})) ])
  = Return [ "operations"; "create" ].
Proof.
  destruct (error_fields_concatenate
              Fixtures.ex_location_unset Fixtures.ex_location_set
              (Fixtures.exception_with
                 [ Fixtures.item (Some None);
                   Fixtures.item
                     (Some (Some {| field_path_elements :=
                                      Some [ {| field_name := Some "operations" |};
                                             {| field_name := Some "create" |} ] |})) ])
              [ Fixtures.item (Some None) ]
              [ Fixtures.item
                  (Some (Some {| field_path_elements :=
                                   Some [ {| field_name := Some "operations" |};
                                          {| field_name := Some "create" |} ] |})) ]
              [] [ "operations"; "create" ]) as [H _];
    [reflexivity | reflexivity | reflexivity | reflexivity | reflexivity | exact H].
Defined.

(** X3: the detail, trigger and location tiers read the first error
    only: two failures that agree on their first error agree on all
    three, whatever errors follow. *)
Theorem later_errors_do_not_reach_details
    (ex ex' : GoogleAdsException) (first : FailureItem) (rest rest' : list FailureItem) :
  failure ex = Some {| failure_errors := Some (first :: rest) |} ->
  failure ex' = Some {| failure_errors := Some (first :: rest') |} ->
  _extract_error_details ex = _extract_error_details ex'
  /\ _extract_trigger ex = _extract_trigger ex'
  /\ _extract_location ex = _extract_location ex'.
Proof.
  intros H H'.
  unfold _extract_error_details, _extract_trigger, _extract_location,
    first_failure_item.
  rewrite H, H'; split_and!; reflexivity.
Qed.

Lemma later_errors_do_not_reach_details_witness :
  Errors._extract_trigger
    (Fixtures.exception_with [Fixtures.item (Some None); Fixtures.item None])
  = Errors._extract_trigger Fixtures.ex_location_unset.
Proof.
  apply (later_errors_do_not_reach_details
           (Fixtures.exception_with [Fixtures.item (Some None); Fixtures.item None])
           Fixtures.ex_location_unset (Fixtures.item (Some None))
           [Fixtures.item None] []); reflexivity.
Defined.

(** X4: a failure that lists no error at all is normalized without
    raising: the record carries the request id, the error code and the
    message, no field path, no detail, no trigger and no location. *)
Theorem create_error_without_errors
    (ex : GoogleAdsException) (cls : string) (i ci : option string)
    (msg rid code : string) (err : RpcError) :
  failure ex = Some {| failure_errors := Some [] |} ->
  _extract_error_message ex = Return msg ->
  request_id ex = Some rid ->
  error ex = Some err ->
  code_name err = Some code ->
  create_error ex cls i ci
  = Return {| error_request_id := rid;
              error_code := code;
              error_message := msg;
              fields := [];
              class_name := cls;
              id := i;
              class_id := ci;
              details := [];
              trigger := None;
              location := None |}.
Proof.
  intros Hf Hm Hr He Hc.
  unfold create_error, _extract_error_fields, _extract_error_details,
    _extract_trigger, _extract_location, first_failure_item.
  rewrite Hm, Hf, Hr, He; simpl; rewrite Hc; reflexivity.
Qed.

Lemma create_error_without_errors_witness :
  Py.returns (Errors.create_error (Fixtures.exception_with []) "Asset" (Some "7") (Some "7")).
Proof.
  eexists.
  apply (create_error_without_errors (Fixtures.exception_with []) "Asset"
           (Some "7") (Some "7") "Too long." "req-1" "INVALID_ARGUMENT"
           {| code_name := Some "INVALID_ARGUMENT";
              policy_violation_details := None;
              rpc_message := Some "Request contains an invalid argument.";
              rpc_details := Some "Too long." |}); reflexivity.
Defined.

End MoreErrorFacts.

(** ** URL repair, keyword ideas and keyword queries ([keywords.py]) *)

Section StringFacts.

Lemma prefix_true_iff (p s : string) :
  String.prefix p s = true <-> exists rest, s = p ++ rest.
Proof.
  revert s; induction p as [|a p IH]; intros s.
  - split; [intros _; exists s; reflexivity | intros _; destruct s; reflexivity].
  - destruct s as [|b s]; simpl;
      [split; [discriminate | intros [rest H]; discriminate]|].
    destruct (ascii_dec a b) as [->|Hne].
    + rewrite IH; split; intros [rest H]; exists rest.
      * rewrite H; reflexivity.
      * injection H as H; exact H.
    + split; [discriminate | intros [rest H]; injection H as H1 H2; congruence].
Qed.

Lemma prefix_app (p rest : string) : String.prefix p (p ++ rest) = true.
Proof. apply prefix_true_iff; exists rest; reflexivity. Qed.

Lemma strip_prefix_Some_iff (p s rest : string) :
  Ad.strip_prefix p s = Some rest <-> s = p ++ rest.
Proof.
  revert s; induction p as [|a p IH]; intros s; simpl.
  - split; [intros [= ->]; reflexivity | intros ->; reflexivity].
  - destruct s as [|b s]; [split; discriminate|].
    destruct (Ascii.eqb_spec a b) as [->|Hne].
    + rewrite IH; split; [intros ->; reflexivity | intros [= ->]; reflexivity].
    + split; [discriminate | intros [= H1 H2]; congruence].
Qed.

Lemma strip_prefix_app (p rest : string) :
  Ad.strip_prefix p (p ++ rest) = Some rest.
Proof. apply strip_prefix_Some_iff; reflexivity. Qed.

Lemma strip_prefix_mismatch (a b : ascii) (p s : string) :
  a <> b -> Ad.strip_prefix (String a p) (String b s) = None.
Proof. intros H; simpl; destruct (Ascii.eqb_spec a b); [contradiction | reflexivity]. Qed.

Lemma append_String (c : ascii) (s t : string) :
  String c s ++ t = String c (s ++ t).
Proof. reflexivity. Qed.

Lemma append_nil_r (s : string) : s ++ "" = s.
Proof.
  induction s as [|c s IH]; [reflexivity|].
  rewrite append_String, IH; reflexivity.
Qed.

Lemma append_assoc (a b c : string) : (a ++ b) ++ c = a ++ (b ++ c).
Proof.
  induction a as [|x a IH]; [reflexivity|].
  rewrite !append_String, IH; reflexivity.
Qed.

End StringFacts.

Section FixUrlFacts.
Import Py KeywordTools.

Lemma fix_url_has_scheme (url : string) :
  exists rest, fix_url url = "https://" ++ rest.
Proof.
  unfold fix_url.
  destruct (String.prefix "https://" url) eqn:Hp; cbn [negb].
  - apply prefix_true_iff, Hp.
  - destruct (Ad.strip_prefix "http://" url); eexists; reflexivity.
Qed.

(** X5: whatever the input, [fix_url] returns a URL that starts with the
    secure scheme; a URL that already does is returned unchanged, the
    plain scheme is replaced, anything else is prefixed; and repairing
    twice is repairing once. *)
Theorem fix_url_gives_https (url : string) :
  (exists rest, fix_url url = "https://" ++ rest)
  /\ fix_url (fix_url url) = fix_url url
  /\ (fix_url url = url <-> exists rest, url = "https://" ++ rest)
  /\ (forall rest, fix_url ("http://" ++ rest) = "https://" ++ rest)
  /\ (String.prefix "https://" url = false ->
      String.prefix "http://" url = false ->
      fix_url url = "https://" ++ url).
Proof.
  split_and!.
  - apply fix_url_has_scheme.
  - destruct (fix_url_has_scheme url) as [rest ->].
    unfold fix_url; rewrite prefix_app; reflexivity.
  - split.
    + intros H; destruct (fix_url_has_scheme url) as [rest Hr].
      exists rest; congruence.
    + intros [rest ->]; unfold fix_url; rewrite prefix_app; reflexivity.
  - intros rest; reflexivity.
  - intros Hs Hp; unfold fix_url; rewrite Hs; cbn [negb].
    destruct (Ad.strip_prefix "http://" url) as [rest|] eqn:Hstrip; [|reflexivity].
    apply strip_prefix_Some_iff in Hstrip.
    assert (String.prefix "http://" url = true)
      by (apply prefix_true_iff; exists rest; exact Hstrip).
    congruence.
Qed.

Lemma fix_url_truthy (url : string) : truthy_str (fix_url url) = true.
Proof. destruct (fix_url_has_scheme url) as [rest ->]; reflexivity. Qed.

Lemma collect_ideas_raises_attribute_error (ideas : list KeywordIdea) (e : exn) :
  collect_ideas ideas = Raise e -> exists name, e = AttributeError name.
Proof.
  induction ideas as [|idea ideas IH]; simpl; [discriminate|].
  destruct (has_metrics idea); [|exact IH].
  destruct (keyword_idea_metrics idea) as [m|]; simpl; [|intros [= <-]; eauto].
  destruct (competition m); simpl; [|intros [= <-]; eauto].
  destruct (idea_text idea); simpl; [|intros [= <-]; eauto].
  destruct (avg_monthly_searches m); simpl; [|intros [= <-]; eauto].
  destruct (collect_ideas ideas) as [entries|e']; simpl; [discriminate|].
  intros [= <-]; apply IH; reflexivity.
Qed.

(** X6: [generate_keyword_ideas] repairs the page URL first, so the URL
    it tests is never empty: the error for a call with neither keywords
    nor URL is never raised and exactly one request is sent.  That request
    carries the repaired URL, alone when there are no keywords and
    together with them otherwise; the keyword-only seed is never used. *)
Theorem keyword_ideas_always_send_page_url
    (client : IdeasClient) (account : option string) (page_url : string)
    (keyword_texts : option (list string)) (language_id : option string) :
  exists request,
    ideas_requests (generate_keyword_ideas client account page_url keyword_texts language_id)
    = [request]
    /\ request_customer_id request = account
    /\ keyword_seed request = None
    /\ (truthy_keywords keyword_texts = false ->
        url_seed request = Some (fix_url page_url)
        /\ keyword_and_url_seed request = None)
    /\ (truthy_keywords keyword_texts = true ->
        url_seed request = None
        /\ keyword_and_url_seed request
           = Some (fix_url page_url, keywords_of keyword_texts))
    /\ (forall msg,
          ideas_outcome
            (generate_keyword_ideas client account page_url keyword_texts language_id)
          <> Uncaught.Raised (Uncaught.PythonError (ValueError msg))).
Proof.
  unfold generate_keyword_ideas.
  rewrite fix_url_truthy, orb_true_r; cbn [negb].
  exists (ideas_request client account (fix_url page_url) keyword_texts language_id).
  split_and!.
  - destruct (generate_ideas client _); reflexivity.
  - reflexivity.
  - unfold ideas_request; cbn [keyword_seed].
    rewrite fix_url_truthy, andb_false_r; reflexivity.
  - intros Hk; unfold ideas_request; cbn [url_seed keyword_and_url_seed].
    rewrite Hk, fix_url_truthy; split; reflexivity.
  - intros Hk; unfold ideas_request; cbn [url_seed keyword_and_url_seed].
    rewrite Hk, fix_url_truthy; split; reflexivity.
  - intros msg.
    destruct (generate_ideas client _) as [ideas|ex]; cbn [ideas_outcome];
      [|discriminate].
    destruct (collect_ideas ideas) as [entries|e] eqn:Hc; simpl; [discriminate|].
    apply collect_ideas_raises_attribute_error in Hc as [name ->]; discriminate.
Qed.

(** X7: the ideas returned are those that carry all four probed metrics,
    in the order of the answer: the keywords of the entries are the texts
    of exactly these ideas, and an answer without such ideas gives the
    empty list. *)
Theorem keyword_ideas_keep_measured_ideas
    (ideas : list KeywordIdea) (entries : list IdeaEntry) :
  collect_ideas ideas = Return entries ->
  map (fun entry => Some (entry_keyword entry)) entries
  = map idea_text (List.filter has_metrics ideas)
  /\ length entries <= length ideas
  /\ (List.filter has_metrics ideas = [] -> entries = []).
Proof.
  revert entries; induction ideas as [|idea ideas IH]; simpl; intros entries.
  - intros [= <-]; split_and!; [reflexivity | reflexivity | reflexivity].
  - destruct (has_metrics idea).
    + destruct (keyword_idea_metrics idea) as [m|]; simpl; [|discriminate].
      destruct (competition m); simpl; [|discriminate].
      destruct (idea_text idea) as [t|]; simpl; [|discriminate].
      destruct (avg_monthly_searches m); simpl; [|discriminate].
      destruct (collect_ideas ideas) as [rest|]; simpl; [|discriminate].
      intros [= <-]; destruct (IH rest eq_refl) as (Hk & Hl & _).
      split_and!; [simpl; f_equal; exact Hk | simpl; lia | discriminate].
    + intros H; destruct (IH entries H) as (Hk & Hl & He).
      split_and!; [exact Hk | lia | exact He].
Qed.

Lemma keyword_ideas_keep_measured_ideas_witness :
  collect_ideas [MoreFixtures.bare_idea; MoreFixtures.gym_idea]
  = Return [ {| entry_keyword := "gym software";
                entry_competition := "MEDIUM";
                average_monthly_searches := 880 |} ]
  /\ map idea_text (List.filter has_metrics [MoreFixtures.bare_idea; MoreFixtures.gym_idea])
     = [ Some "gym software" ].
Proof.
  split; [reflexivity|].
  symmetry.
  exact (proj1 (keyword_ideas_keep_measured_ideas
                  [MoreFixtures.bare_idea; MoreFixtures.gym_idea]
                  [ {| entry_keyword := "gym software";
                       entry_competition := "MEDIUM";
                       average_monthly_searches := 880 |} ] eq_refl)).
Defined.

End FixUrlFacts.

Section KeywordQueryFacts.
Import Py GoogleAds KeywordTools Uncaught.

Variable client : QueryClient.
Variables account group : option string.

(** The query that selects resource names mentions them, whatever the
    ad group identifier is. *)
Lemma name_query_mentions_resource_name :
  contains "resource_name"
    (_build_keyword_query group "ad_group_criterion.resource_name") = true.
Proof. reflexivity. Qed.

Lemma contains_past_digits (digits tail : string) :
  LLM.consists_of Ad.is_digit digits = true ->
  contains "resource_name" (digits ++ tail) = contains "resource_name" tail.
Proof.
  induction digits as [|d digits IH]; [reflexivity|].
  cbn [LLM.consists_of]; intros H; apply andb_true_iff in H as [Hd Hrest].
  rewrite append_String; cbn [contains String.prefix].
  destruct (ascii_dec "r" d) as [<-|_]; [discriminate Hd|].
  apply IH, Hrest.
Qed.

(** The query that selects keyword texts does not mention resource
    names when the ad group identifier is a number. *)
Lemma text_query_omits_resource_name (digits : string) :
  LLM.consists_of Ad.is_digit digits = true ->
  contains "resource_name"
    (_build_keyword_query (Some digits) "ad_group_criterion.keyword.text") = false.
Proof.
  intros Hd.
  change (contains "resource_name"
            (_build_keyword_query (Some digits) "ad_group_criterion.keyword.text"))
    with (contains "resource_name" (digits ++ nl ++ "        ")).
  rewrite contains_past_digits by exact Hd; reflexivity.
Qed.

Lemma collect_rows_names (query : string) (rows : list (list CriterionRow)) :
  contains "resource_name" query = true ->
  collect_rows query rows = map row_resource_name (concat rows).
Proof.
  intros H; unfold collect_rows; rewrite H.
  induction rows as [|batch rows IH]; [reflexivity|].
  cbn [map concat]; rewrite IH, map_app; reflexivity.
Qed.

Lemma collect_rows_texts (query : string) (rows : list (list CriterionRow)) :
  contains "resource_name" query = false ->
  collect_rows query rows = map row_keyword_text (concat rows).
Proof.
  intros H; unfold collect_rows; rewrite H.
  induction rows as [|batch rows IH]; [reflexivity|].
  cbn [map concat]; rewrite IH, map_app; reflexivity.
Qed.

(** X8: [get_keywords_for_ad_group] returns the resource names of all
    rows of all batches, in the order the platform streams them, after a
    single search; and for an ad group whose identifier is a number
    [get_keywords_text_for_ad_group] returns the keyword texts of the
    same rows. *)
Theorem keyword_queries_flatten_batches
    (digits : string) (names_rows text_rows : list (list CriterionRow)) :
  group = Some digits ->
  LLM.consists_of Ad.is_digit digits = true ->
  search_stream client account
    (_build_keyword_query group "ad_group_criterion.resource_name")
    = Responds names_rows ->
  search_stream client account
    (_build_keyword_query group "ad_group_criterion.keyword.text")
    = Responds text_rows ->
  get_keywords_for_ad_group client account group
  = {| query_outcome := Done (map row_resource_name (concat names_rows));
       query_calls :=
         [ SearchStream account
             (_build_keyword_query group "ad_group_criterion.resource_name") ] |}
  /\ get_keywords_text_for_ad_group client account group
     = {| query_outcome := Done (map row_keyword_text (concat text_rows));
          query_calls :=
            [ SearchStream account
                (_build_keyword_query group "ad_group_criterion.keyword.text") ] |}.
Proof.
  intros Hg Hd Hnames Htexts.
  unfold get_keywords_for_ad_group, get_keywords_text_for_ad_group,
    _execute_keyword_query.
  rewrite Hnames, Htexts; split.
  - rewrite collect_rows_names by apply name_query_mentions_resource_name.
    reflexivity.
  - rewrite collect_rows_texts; [reflexivity|].
    rewrite Hg; apply text_query_omits_resource_name, Hd.
Qed.

(** X9: [remove_keywords_from_googleads] searches once; when the ad
    group has no keyword it stops there, without a mutate call; otherwise
    it sends one mutate call holding one remove operation per keyword
    resource name, in the order found.  A platform failure on either call
    propagates. *)
Theorem remove_keywords_one_operation_each (rows : list (list CriterionRow)) :
  search_stream client account
    (_build_keyword_query group "ad_group_criterion.resource_name")
    = Responds rows ->
  let names := map row_resource_name (concat rows) in
  let search :=
    SearchStream account
      (_build_keyword_query group "ad_group_criterion.resource_name") in
  let run := remove_keywords_from_googleads client account group in
  (names = [] -> run = {| query_outcome := Done tt; query_calls := [search] |})
  /\ (names <> [] ->
      query_calls run
      = [ search; MutateCriteria account (map Keywords.Remove names) ]
      /\ (forall ex,
            mutate_criteria client account (map Keywords.Remove names) = Fails ex ->
            query_outcome run = Raised (PlatformError ex))
      /\ (forall response,
            mutate_criteria client account (map Keywords.Remove names)
              = Responds response ->
            query_outcome run = Done tt)).
Proof.
  intros Hsearch names search run; subst run.
  unfold remove_keywords_from_googleads, get_keywords_for_ad_group,
    _execute_keyword_query.
  rewrite Hsearch; cbn [query_outcome query_calls].
  rewrite collect_rows_names by apply name_query_mentions_resource_name.
  fold names; split.
  - intros ->; reflexivity.
  - intros Hne; destruct names as [|n ns] eqn:Hn; [congruence|].
    cbn [truthy_list negb].
    change (map _create_remove_operation (n :: ns))
      with (map Keywords.Remove (n :: ns)).
    destruct (mutate_criteria client account (map Keywords.Remove (n :: ns)));
      cbn [query_outcome query_calls]; split_and!;
      try reflexivity; try (intros; discriminate); intros ? [= <-]; reflexivity.
Qed.

(** A failing search propagates and nothing is removed. *)
Lemma remove_keywords_search_failure (ex : Errors.GoogleAdsException) :
  search_stream client account
    (_build_keyword_query group "ad_group_criterion.resource_name")
    = Fails ex ->
  remove_keywords_from_googleads client account group
  = {| query_outcome := Raised (PlatformError ex);
       query_calls :=
         [ SearchStream account
             (_build_keyword_query group "ad_group_criterion.resource_name") ] |}.
Proof.
  intros H; unfold remove_keywords_from_googleads, get_keywords_for_ad_group,
    _execute_keyword_query.
  rewrite H; reflexivity.
Qed.

End KeywordQueryFacts.

Lemma keyword_queries_flatten_batches_witness :
  KeywordTools.query_outcome
    (KeywordTools.get_keywords_text_for_ad_group
       (MoreFixtures.query_client MoreFixtures.found_rows) (Some "1") (Some "9"))
  = Uncaught.Done [ "gym"; "gym software"; "fitness" ].
Proof.
  destruct (keyword_queries_flatten_batches
              (MoreFixtures.query_client MoreFixtures.found_rows) (Some "1") (Some "9")
              "9" MoreFixtures.found_rows MoreFixtures.found_rows
              eq_refl eq_refl eq_refl eq_refl) as [_ H].
  rewrite H; reflexivity.
Defined.

Lemma remove_keywords_one_operation_each_witness :
  KeywordTools.query_calls
    (KeywordTools.remove_keywords_from_googleads
       (MoreFixtures.query_client MoreFixtures.found_rows) (Some "1") (Some "9"))
  = [ KeywordTools.SearchStream (Some "1")
        (KeywordTools._build_keyword_query (Some "9") "ad_group_criterion.resource_name");
      KeywordTools.MutateCriteria (Some "1")
        [ Keywords.Remove "customers/1/adGroupCriteria/9~10";
          Keywords.Remove "customers/1/adGroupCriteria/9~11";
          Keywords.Remove "customers/1/adGroupCriteria/9~12" ] ].
Proof.
  destruct (remove_keywords_one_operation_each
              (MoreFixtures.query_client MoreFixtures.found_rows) (Some "1") (Some "9")
              MoreFixtures.found_rows eq_refl) as [_ H].
  destruct H as [H _]; [discriminate|].
  exact H.
Defined.

(** ** Creating ads and ad groups ([ad.py]) *)

Section DigitFacts.

Lemma span_digits_app (digits tail : string) :
  LLM.consists_of Ad.is_digit digits = true ->
  match tail with
  | String c _ => Ad.is_digit c = false
  | EmptyString => True
  end ->
  Ad.span_digits (digits ++ tail) = (digits, tail).
Proof.
  intros Hd Ht; induction digits as [|d digits IH].
  - destruct tail as [|c tail]; [reflexivity|].
    change (Ad.span_digits (String c tail)
            = (EmptyString, String c tail)).
    cbn [Ad.span_digits]; rewrite Ht; reflexivity.
  - cbn [LLM.consists_of] in Hd; apply andb_true_iff in Hd as [Hd Hrest].
    rewrite append_String; cbn [Ad.span_digits]; rewrite Hd, (IH Hrest).
    reflexivity.
Qed.

Lemma span_digits_all (digits : string) :
  LLM.consists_of Ad.is_digit digits = true ->
  Ad.span_digits digits = (digits, EmptyString).
Proof.
  intros Hd; rewrite <- (append_nil_r digits) at 1.
  apply span_digits_app; [exact Hd | exact I].
Qed.

(** Scanning for the composite identifier skips a character that does
    not start the literal. *)
Lemma first_ad_group_ad_id_skip (c : ascii) (rest : string) :
  c <> "a"%char ->
  Ad.first_ad_group_ad_id (String c rest) = Ad.first_ad_group_ad_id rest.
Proof.
  intros Hc; cbn [Ad.first_ad_group_ad_id].
  unfold Ad.match_ad_group_ad_at at 1.
  rewrite strip_prefix_mismatch by congruence; reflexivity.
Qed.

Lemma first_ad_group_ad_id_skip_digits (digits rest : string) :
  LLM.consists_of Ad.is_digit digits = true ->
  Ad.first_ad_group_ad_id (digits ++ rest) = Ad.first_ad_group_ad_id rest.
Proof.
  induction digits as [|d digits IH]; [reflexivity|].
  cbn [LLM.consists_of]; intros H; apply andb_true_iff in H as [Hd Hrest].
  rewrite append_String, first_ad_group_ad_id_skip; [apply IH, Hrest|].
  intros ->; vm_compute in Hd; discriminate Hd.
Qed.

End DigitFacts.

Section IdentifierRoundTrips.
Import Py.

Lemma match_ad_group_ad_here (g a : string) :
  LLM.consists_of Ad.is_digit g = true ->
  LLM.consists_of Ad.is_digit a = true ->
  g <> "" -> a <> "" ->
  Ad.match_ad_group_ad_at ("adGroupAds/" ++ g ++ String "~" a) = Some (g ++ "~" ++ a).
Proof.
  intros Hg Ha Hgne Hane; unfold Ad.match_ad_group_ad_at.
  rewrite strip_prefix_app, (span_digits_app g (String "~" a) Hg eq_refl).
  destruct g as [|g0 g]; [congruence|].
  rewrite (span_digits_all a Ha).
  destruct a as [|a0 a]; [congruence | reflexivity].
Qed.

(** The composite identifier is read back from a resource name of the
    platform's form. *)
Lemma composite_id_round_trip (c g a : string) :
  LLM.consists_of Ad.is_digit c = true ->
  LLM.consists_of Ad.is_digit g = true ->
  LLM.consists_of Ad.is_digit a = true ->
  g <> "" -> a <> "" ->
  Ad.first_ad_group_ad_id ("customers/" ++ c ++ "/adGroupAds/" ++ g ++ "~" ++ a)
  = Return (g ++ "~" ++ a).
Proof.
  intros Hc Hg Ha Hgne Hane.
  change ("customers/" ++ c ++ "/adGroupAds/" ++ g ++ "~" ++ a)
    with (String "c" (String "u" (String "s" (String "t" (String "o" (String "m"
           (String "e" (String "r" (String "s" (String "/"
             (c ++ String "/" ("adGroupAds/" ++ g ++ String "~" a)))))))))))).
  rewrite !first_ad_group_ad_id_skip by discriminate.
  rewrite (first_ad_group_ad_id_skip_digits c _ Hc).
  rewrite first_ad_group_ad_id_skip by discriminate.
  pose proof (match_ad_group_ad_here g a Hg Ha Hgne Hane) as Hm.
  change ("adGroupAds/" ++ g ++ String "~" a)
    with (String "a" ("dGroupAds/" ++ g ++ String "~" a)) in *.
  cbn [Ad.first_ad_group_ad_id]; rewrite Hm; reflexivity.
Qed.

Lemma first_ad_group_id_skip (c : ascii) (rest : string) :
  c <> "a"%char ->
  AdGroups.first_ad_group_id (String c rest) = AdGroups.first_ad_group_id rest.
Proof.
  intros Hc; cbn [AdGroups.first_ad_group_id].
  unfold AdGroups.match_ad_group_at at 1.
  rewrite strip_prefix_mismatch by congruence; reflexivity.
Qed.

Lemma first_ad_group_id_skip_digits (digits rest : string) :
  LLM.consists_of Ad.is_digit digits = true ->
  AdGroups.first_ad_group_id (digits ++ rest) = AdGroups.first_ad_group_id rest.
Proof.
  induction digits as [|d digits IH]; [reflexivity|].
  cbn [LLM.consists_of]; intros H; apply andb_true_iff in H as [Hd Hrest].
  rewrite append_String, first_ad_group_id_skip; [apply IH, Hrest|].
  intros ->; vm_compute in Hd; discriminate Hd.
Qed.

(** The ad group identifier is read back from the path the platform
    builds for it. *)
Lemma ad_group_id_round_trip (c g : string) :
  LLM.consists_of Ad.is_digit c = true ->
  LLM.consists_of Ad.is_digit g = true ->
  g <> "" ->
  AdGroups.first_ad_group_id (GoogleAds.ad_group_path (Some c) (Some g)) = Return g.
Proof.
  intros Hc Hg Hgne.
  change (GoogleAds.ad_group_path (Some c) (Some g))
    with (String "c" (String "u" (String "s" (String "t" (String "o" (String "m"
           (String "e" (String "r" (String "s" (String "/"
             (c ++ String "/" (String "a" ("dGroups/" ++ g))))))))))))).
  rewrite !first_ad_group_id_skip by discriminate.
  rewrite (first_ad_group_id_skip_digits c _ Hc).
  rewrite first_ad_group_id_skip by discriminate.
  cbn [AdGroups.first_ad_group_id].
  assert (Hm : AdGroups.match_ad_group_at (String "a" ("dGroups/" ++ g)) = Some g).
  { change (String "a" ("dGroups/" ++ g)) with ("adGroups/" ++ g).
    unfold AdGroups.match_ad_group_at.
    rewrite strip_prefix_app, (span_digits_all g Hg).
    destruct g; [congruence | reflexivity]. }
  rewrite Hm; reflexivity.
Qed.

End IdentifierRoundTrips.

Lemma validate_headlines_and_descriptions_ok {A B : Type} (hs : list A) (ds : list B) :
  (Ad.validate_headlines_and_descriptions hs ds = Py.Return tt
     <-> 3 <= length hs /\ 2 <= length ds)
  /\ (forall e, Ad.validate_headlines_and_descriptions hs ds = Py.Raise e ->
        exists msg, e = Py.ValueError msg).
Proof.
  unfold Ad.validate_headlines_and_descriptions, Ad.MIN_HEADLINES, Ad.MIN_DESCRIPTIONS.
  destruct (Nat.ltb_spec (length hs) 3); [|destruct (Nat.ltb_spec (length ds) 2)].
  - split; [split; [discriminate | lia] | intros e [= <-]; eauto].
  - split; [split; [discriminate | lia] | intros e [= <-]; eauto].
  - split; [split; [lia | reflexivity] | discriminate].
Qed.

Section MoreAdFacts.
Import Py GoogleAds Ad.

Variable self : GoogleAdsAdIntegration.

Lemma validate_url_returns_iff (u : string) :
  validate_url u = Return tt
  <-> exists rest, u = "http://" ++ rest \/ u = "https://" ++ rest.
Proof.
  unfold validate_url.
  destruct (String.prefix "http://" u) eqn:Hp, (String.prefix "https://" u) eqn:Hs;
    cbn [orb negb].
  - apply prefix_true_iff in Hp as [rest ->]; rewrite orb_false_r.
    split; [intros _; exists rest; left; reflexivity | reflexivity].
  - apply prefix_true_iff in Hp as [rest ->]; rewrite orb_false_r.
    split; [intros _; exists rest; left; reflexivity | reflexivity].
  - apply prefix_true_iff in Hs as [rest ->]; rewrite orb_false_r.
    split; [intros _; exists rest; right; reflexivity | reflexivity].
  - rewrite orb_true_r; split; [discriminate|].
    intros [rest [-> | ->]]; rewrite prefix_app in *; discriminate.
Qed.

Lemma validate_url_raises (u : string) (e : exn) :
  validate_url u = Raise e ->
  e = ValueError "Invalid URL format. Must start with http:// or https://".
Proof.
  unfold validate_url; destruct (negb (truthy_str u) || _);
    [intros [= <-]; reflexivity | discriminate].
Qed.

(** X10: the input of an ad create passes validation exactly when the
    ad group identifier is not empty, the URL starts with one of the two
    web schemes, and there are at least 3 headlines and 2 descriptions.
    Exactly when it does not pass, the create raises [ValueError] without
    calling the platform and leaves the instance, with its error list, as
    it was. *)
Theorem create_validates_before_calling (ad_group_id : string) (ad : AdData) :
  let passes :=
    ad_group_id <> ""
    /\ (exists rest, url ad = "http://" ++ rest \/ url ad = "https://" ++ rest)
    /\ 3 <= length (headlines ad)
    /\ 2 <= length (descriptions ad) in
  let run := create_responsive_search_ad self ad_group_id ad in
  (_validate_ad_input ad_group_id ad = Return tt <-> passes)
  /\ (remote_calls run = [] <-> ~ passes)
  /\ (~ passes ->
      (exists msg, outcome run = Raise (ValueError msg))
      /\ self_after run = self).
Proof.
  intros passes run.
  assert (Hiff : _validate_ad_input ad_group_id ad = Return tt <-> passes).
  { unfold passes, _validate_ad_input.
    destruct ad_group_id as [|c g]; cbn [truthy_str negb].
    { split; [discriminate | intros (H & _); congruence]. }
    destruct (validate_url (url ad)) as [[]|e] eqn:Hu; cbn [bind].
    - assert (Hurl := proj1 (validate_url_returns_iff (url ad)) Hu).
      destruct (validate_headlines_and_descriptions_ok (headlines ad) (descriptions ad))
        as [Hok _].
      split.
      + intros H; apply Hok in H; split_and!; [discriminate | exact Hurl | lia | lia].
      + intros (_ & _ & H3 & H2); apply Hok; lia.
    - split; [discriminate|].
      intros (_ & Hurl & _); apply validate_url_returns_iff in Hurl; congruence. }
  assert (Hraise : forall e, _validate_ad_input ad_group_id ad = Raise e ->
                             exists msg, e = ValueError msg).
  { intros e; unfold _validate_ad_input.
    destruct (negb (truthy_str ad_group_id)); [intros [= <-]; eauto|].
    destruct (validate_url (url ad)) as [[]|e'] eqn:Hu; cbn [bind].
    - intros H.
      destruct (validate_headlines_and_descriptions_ok (headlines ad) (descriptions ad))
        as [_ Hv]; apply Hv, H.
    - intros [= <-]; apply validate_url_raises in Hu; eauto. }
  split; [exact Hiff|].
  subst run; unfold create_responsive_search_ad.
  destruct (_validate_ad_input ad_group_id ad) as [[]|e] eqn:Hv.
  - split.
    + split; [|intros Hn; exfalso; apply Hn, Hiff; reflexivity].
      destruct (mutate_ad_group_ads _ _ _); [discriminate|].
      destruct (add_error self ex ad); discriminate.
    + intros Hn; exfalso; apply Hn, Hiff; reflexivity.
  - assert (Hn : ~ passes) by (intros Hp; apply Hiff in Hp; discriminate).
    split; [split; [intros _; exact Hn | reflexivity]|].
    intros _; cbn [outcome self_after]; split; [|reflexivity].
    destruct (Hraise e eq_refl) as [msg ->]; eauto.
Qed.

End MoreAdFacts.

Section AdOutcomes.
Import Py GoogleAds Ad.

Variable self : GoogleAdsAdIntegration.

Lemma ad_text_assets_to_array_eq (assets : list AdTextAsset) :
  AdGroups.ad_text_assets_to_array assets = map asset_text assets.
Proof.
  unfold AdGroups.ad_text_assets_to_array.
  assert (H : forall acc : list string,
             fold_left (fun (s : list string) asset => (s ++ [asset_text asset])%list)
                       assets acc
             = (acc ++ map asset_text assets)%list).
  { induction assets as [|a assets IH]; intros acc; cbn [fold_left map].
    - rewrite app_nil_r; reflexivity.
    - rewrite IH, <- app_assoc; reflexivity. }
  apply H.
Qed.

(** X11: when the platform rejects an ad create, the facade catches the
    exception.  If the normalizer returns, the call returns [None] and
    the instance's error list has grown by exactly the normalized error,
    filed under class Ad with the campaign identifier and the ad's id as
    strings; if the normalizer raises, that exception propagates and the
    error list is unchanged.  Either way the platform was called once. *)
Theorem create_records_platform_failure
    (ad_group_id : string) (ad : AdData) (ex : Errors.GoogleAdsException) :
  _validate_ad_input ad_group_id ad = Return tt ->
  mutate_ad_group_ads (client self) (googleads_account_id self)
    [_prepare_ad_group_ad self ad_group_id ad] = Fails ex ->
  let run := create_responsive_search_ad self ad_group_id ad in
  let filed :=
    Errors.create_error ex "Ad"
      (Some (str_of_optional (googleads_campaign_id self)))
      (match ad_id ad with Some i => Some (str_of_int i) | None => None end) in
  length (remote_calls run) = 1
  /\ (forall normalized,
        filed = Return normalized ->
        outcome run = Return None
        /\ errors (self_after run) = (errors self ++ [normalized])%list
        /\ length (errors (self_after run)) = length (errors self) + 1
        /\ client (self_after run) = client self
        /\ googleads_campaign_id (self_after run) = googleads_campaign_id self)
  /\ (forall e,
        filed = Raise e ->
        outcome run = Raise e /\ self_after run = self).
Proof.
  intros Hv Hfail run filed; subst run filed.
  unfold create_responsive_search_ad, add_error; rewrite Hv, Hfail.
  destruct (Errors.create_error _ _ _ _) as [normalized|e]; cbn [bind];
    split_and!; try reflexivity.
  - intros n [= <-]; cbn [outcome self_after with_errors errors client
                          googleads_campaign_id].
    rewrite length_app; split_and!; reflexivity.
  - intros e H; discriminate.
  - intros n H; discriminate.
  - intros e' [= <-]; split; reflexivity.
Qed.

(** X12: when the platform accepts an ad create and names the new ad in
    its own form, customers/C/adGroupAds/G~A with numeric parts, the call
    returns the composite identifier G~A and leaves the instance as it
    was; an answer without results raises [IndexError]. *)
Theorem create_returns_composite_id
    (ad_group_id : string) (ad : AdData) (response : MutateResponse) :
  _validate_ad_input ad_group_id ad = Return tt ->
  mutate_ad_group_ads (client self) (googleads_account_id self)
    [_prepare_ad_group_ad self ad_group_id ad] = Responds response ->
  let run := create_responsive_search_ad self ad_group_id ad in
  self_after run = self
  /\ (results response = [] -> outcome run = Raise IndexError)
  /\ (forall c g a more,
        LLM.consists_of is_digit c = true ->
        LLM.consists_of is_digit g = true ->
        LLM.consists_of is_digit a = true ->
        g <> "" -> a <> "" ->
        results response
        = {| resource_name := "customers/" ++ c ++ "/adGroupAds/" ++ g ++ "~" ++ a |}
            :: more ->
        outcome run = Return (Some (g ++ "~" ++ a))).
Proof.
  intros Hv Hresp run; subst run.
  unfold create_responsive_search_ad; rewrite Hv, Hresp.
  cbn [self_after outcome]; split_and!; [reflexivity | intros ->; reflexivity|].
  intros c g a more Hc Hg Ha Hgne Hane ->; cbn [first_item bind resource_name].
  rewrite composite_id_round_trip by assumption; reflexivity.
Qed.

(** X13: an ad create sends at most 15 headlines and 4 descriptions, the
    first ones in their order, and sends their texts as they are, however
    long; read back with [ad_text_assets_to_array] the operation gives
    the submitted texts. *)
Theorem create_caps_but_does_not_truncate (ad_group_id : string) (ad : AdData) :
  let operation := _prepare_ad_group_ad self ad_group_id ad in
  AdGroups.ad_text_assets_to_array (create_headlines operation)
  = map text (take 15 (headlines ad))
  /\ AdGroups.ad_text_assets_to_array (create_descriptions operation)
     = map text (take 4 (descriptions ad))
  /\ length (create_headlines operation) = Nat.min 15 (length (headlines ad))
  /\ length (create_descriptions operation) = Nat.min 4 (length (descriptions ad))
  /\ Forall (fun asset => pinned_field asset = UNSPECIFIED)
       (create_headlines operation ++ create_descriptions operation).
Proof.
  intros operation; subst operation.
  rewrite !ad_text_assets_to_array_eq.
  unfold _prepare_ad_group_ad, MAX_HEADLINES, MAX_DESCRIPTIONS.
  cbn [create_headlines create_descriptions].
  assert (Hh : (if truthy_list (headlines ad)
                then ([] ++ map (fun headline => create_text_asset (text headline) None)
                                (take 15 (headlines ad)))%list
                else [])
               = map (fun headline => create_text_asset (text headline) None)
                     (take 15 (headlines ad)))
    by (destruct (headlines ad); reflexivity).
  assert (Hd : (if truthy_list (descriptions ad)
                then ([] ++ map (fun description =>
                                   create_text_asset (text description) None)
                                (take 4 (descriptions ad)))%list
                else [])
               = map (fun description => create_text_asset (text description) None)
                     (take 4 (descriptions ad)))
    by (destruct (descriptions ad); reflexivity).
  rewrite Hh, Hd; split_and!.
  - rewrite map_map; reflexivity.
  - rewrite map_map; reflexivity.
  - rewrite length_map, length_take; lia.
  - rewrite length_map, length_take; lia.
  - apply Forall_app; split; apply Forall_forall; intros asset Hin;
      apply list_elem_of_In, in_map_iff in Hin as (t & <- & _); reflexivity.
Qed.

End AdOutcomes.

Lemma create_records_platform_failure_witness :
  let run :=
    Ad.create_responsive_search_ad
      (MoreFixtures.rejected_ad_facade Fixtures.ex_location_set) "22" Fixtures.gym_ad in
  Ad.outcome run = Py.Return None
  /\ map Errors.class_id (Ad.errors (Ad.self_after run)) = [Some "5"]
  /\ map Errors.fields (Ad.errors (Ad.self_after run)) = [["operations"; "create"]].
Proof.
  cbv zeta.
  destruct (create_records_platform_failure
              (MoreFixtures.rejected_ad_facade Fixtures.ex_location_set)
              "22" Fixtures.gym_ad Fixtures.ex_location_set eq_refl eq_refl)
    as (_ & H & _).
  destruct (H _ eq_refl) as (Hout & Herr & _).
  rewrite Hout, Herr; split_and!; reflexivity.
Defined.

Lemma create_returns_composite_id_witness :
  Ad.outcome (Ad.create_responsive_search_ad Fixtures.ad_facade "22" Fixtures.gym_ad)
  = Py.Return (Some "22~333").
Proof.
  destruct (create_returns_composite_id Fixtures.ad_facade "22" Fixtures.gym_ad
              {| GoogleAds.results :=
                   [ {| GoogleAds.resource_name := "customers/1/adGroupAds/22~333" |} ] |}
              eq_refl eq_refl) as (_ & _ & H).
  apply (H "1" "22" "333" []); try reflexivity; discriminate.
Defined.

Section UpdateOutcomes.
Import Py GoogleAds Ad.

Variable self : GoogleAdsAdIntegration.

Lemma update_unfold (googleads_ad_id : string) (ad : AdData) :
  3 <= length (headlines ad) -> 2 <= length (descriptions ad) ->
  googleads_ad_id <> "" ->
  update_responsive_search_ad self googleads_ad_id ad
  = _update_responsive_search_ad self googleads_ad_id
      {| config_headlines := Some (take MAX_HEADLINES (headlines ad));
         config_descriptions := Some (take MAX_DESCRIPTIONS (descriptions ad));
         config_final_urls := None |}.
Proof.
  intros Hh Hd Hid; unfold update_responsive_search_ad, _validate_update_input.
  destruct googleads_ad_id; [congruence|]; cbn [truthy_str negb].
  destruct (validate_headlines_and_descriptions_ok (headlines ad) (descriptions ad))
    as [Hok _].
  rewrite (proj2 Hok (conj Hh Hd)); reflexivity.
Qed.

(** X14: an update whose ad identifier is not empty and whose ad has at
    least 3 headlines and 2 descriptions reaches the platform with one
    operation: it addresses the ad by its path, carries the first 15
    headlines cut to 30 characters and the first 4 descriptions with
    their texts as they are, and leaves the final URLs empty and out of
    the mask.  An update that fails one of the three conditions raises
    [ValueError] and does not reach the platform. *)
Theorem update_sends_validated_assets (googleads_ad_id : string) (ad : AdData) :
  let run := update_responsive_search_ad self googleads_ad_id ad in
  (googleads_ad_id <> "" /\ 3 <= length (headlines ad) /\ 2 <= length (descriptions ad) ->
   exists operation,
     remote_calls run = [MutateAds (googleads_account_id self) [operation]]
     /\ ad_resource_name (update operation)
        = ad_path (googleads_account_id self) (Some googleads_ad_id)
     /\ AdGroups.ad_text_assets_to_array
          (rsa_headlines (responsive_search_ad (update operation)))
        = map (fun h => slice_to 30 (text h)) (take 15 (headlines ad))
     /\ AdGroups.ad_text_assets_to_array
          (rsa_descriptions (responsive_search_ad (update operation)))
        = map text (take 4 (descriptions ad))
     /\ final_urls (update operation) = []
     /\ ~ "final_urls" ∈ update_mask operation
     /\ "responsive_search_ad.headlines" ∈ update_mask operation
     /\ "responsive_search_ad.descriptions" ∈ update_mask operation)
  /\ (googleads_ad_id = "" \/ length (headlines ad) < 3 \/ length (descriptions ad) < 2 ->
      remote_calls run = []
      /\ self_after run = self
      /\ exists msg, outcome run = Raise (ValueError msg)).
Proof.
  intros run; subst run; split.
  - intros (Hid & Hh & Hd).
    rewrite (update_unfold googleads_ad_id ad Hh Hd Hid), update_remote_calls.
    eexists; split; [reflexivity|].
    cbn [update update_mask]; rewrite sent_update_mask_eq.
    unfold update_template, MAX_HEADLINES, MAX_DESCRIPTIONS.
    cbn [config_headlines config_descriptions config_final_urls
         _update_headlines _update_descriptions _prepare_update_operation update
         ad_resource_name final_urls responsive_search_ad rsa_headlines
         rsa_descriptions zero_ad app].
    rewrite !ad_text_assets_to_array_eq.
    destruct (headlines ad) as [|h1 [|h2 [|h3 hs]]]; cbn [length] in Hh; try lia.
    destruct (descriptions ad) as [|d1 [|d2 ds]]; cbn [length] in Hd; try lia.
    split_and!.
    + reflexivity.
    + rewrite truncate_headlines_texts; reflexivity.
    + rewrite map_map; reflexivity.
    + reflexivity.
    + cbn; intros H; elem_cases H.
    + cbn; elem_found.
    + cbn; elem_found.
  - intros Hbad; unfold update_responsive_search_ad, _validate_update_input.
    destruct googleads_ad_id as [|c i]; cbn [truthy_str negb];
      [split_and!; try reflexivity; eauto|].
    destruct Hbad as [Hbad | Hbad]; [discriminate|].
    destruct (validate_headlines_and_descriptions_ok (headlines ad) (descriptions ad))
      as [Hok Hraise].
    destruct (validate_headlines_and_descriptions (headlines ad) (descriptions ad))
      as [[]|e] eqn:Hv.
    + destruct Hok as [Hok _]; specialize (Hok eq_refl); lia.
    + destruct (Hraise e eq_refl) as [msg ->].
      split_and!; try reflexivity; eauto.
Qed.

(** X15: when the platform rejects an update, the exception is caught
    and not raised again: if the normalizer returns, the call returns
    normally and the error list has grown by exactly the normalized
    error, filed under class Ad with the campaign identifier and the
    identifier of the ad; if the normalizer raises, that exception
    propagates and the error list is unchanged. *)
Theorem update_records_platform_failure
    (googleads_ad_id : string) (config : AdUpdateConfig)
    (ex : Errors.GoogleAdsException) :
  mutate_ads (client self) (googleads_account_id self)
    [ {| update := update_template self googleads_ad_id config;
         update_mask := sent_update_mask self googleads_ad_id config |} ]
    = Fails ex ->
  let run := _update_responsive_search_ad self googleads_ad_id config in
  let filed :=
    Errors.create_error ex "Ad" (googleads_campaign_id self) (Some googleads_ad_id) in
  (forall normalized,
     filed = Return normalized ->
     outcome run = Return tt
     /\ errors (self_after run) = (errors self ++ [normalized])%list
     /\ Errors.class_id normalized = Some googleads_ad_id
     /\ Errors.id normalized = googleads_campaign_id self)
  /\ (forall e,
        filed = Raise e -> outcome run = Raise e /\ self_after run = self).
Proof.
  intros Hfail run filed; subst run filed.
  unfold _update_responsive_search_ad, _execute_update_operation.
  cbn [update]; fold (sent_update_mask self googleads_ad_id config).
  rewrite Hfail.
  destruct (Errors.create_error ex "Ad" (googleads_campaign_id self)
              (Some googleads_ad_id)) as [normalized|e] eqn:Hn; split.
  - intros n [= <-]; cbn [outcome self_after with_errors errors].
    unfold Errors.create_error in Hn.
    repeat (apply bind_return_inv in Hn as (? & _ & Hn)).
    injection Hn as <-; split_and!; reflexivity.
  - intros e H; discriminate.
  - intros n H; discriminate.
  - intros e' [= <-]; split; reflexivity.
Qed.

End UpdateOutcomes.

Lemma update_sends_validated_assets_witness :
  exists operation,
    Ad.remote_calls (Ad.update_responsive_search_ad Fixtures.ad_facade "333" Fixtures.gym_ad)
    = [Ad.MutateAds (Some "1") [operation]]
    /\ Ad.ad_resource_name (Ad.update operation) = "customers/1/ads/333".
Proof.
  destruct (update_sends_validated_assets Fixtures.ad_facade "333" Fixtures.gym_ad)
    as [H _].
  destruct H as (operation & Hcalls & Hname & _).
  - split_and!; [discriminate | cbn; lia | cbn; lia].
  - exists operation; split; [exact Hcalls | exact Hname].
Defined.

Lemma update_records_platform_failure_witness :
  let run :=
    Ad._update_responsive_search_ad
      (MoreFixtures.rejected_ad_facade Fixtures.ex_location_unset) "333"
      Fixtures.only_headlines in
  Ad.outcome run = Py.Return tt
  /\ map Errors.class_id (Ad.errors (Ad.self_after run)) = [Some "333"].
Proof.
  cbv zeta.
  destruct (update_records_platform_failure
              (MoreFixtures.rejected_ad_facade Fixtures.ex_location_unset) "333"
              Fixtures.only_headlines Fixtures.ex_location_unset eq_refl) as [H _].
  destruct (H _ eq_refl) as (Hout & Herr & _).
  rewrite Hout, Herr; split; reflexivity.
Defined.

Section AdGroupFacts.
Import Py GoogleAds AdGroups.

Variable self : GoogleAdsAdGroupManager.

(** X16: without a campaign identifier, absent or empty, no ad group is
    created: [create_ad_group] and the two entry points built on it raise
    [ValueError] before any operation is built or sent. *)
Theorem create_ad_group_needs_campaign
    (config : AdGroupConfig) (uuid : string) (ad : Ad.AdData) :
  googleads_campaign_id self = None \/ googleads_campaign_id self = Some "" ->
  let refused :=
    {| outcome :=
         Uncaught.Raised (Uncaught.PythonError
           (ValueError "googleads_campaign_id is required for creating an ad group"));
       remote_calls := [] |} in
  create_ad_group self config = refused
  /\ create_dynamic_ad_group self uuid = refused
  /\ create_googleads_ad_group self uuid ad = refused.
Proof.
  intros H refused; subst refused.
  unfold create_dynamic_ad_group, create_googleads_ad_group, create_ad_group,
    _validate_googleads_campaign_id, campaign_id_set.
  destruct H as [-> | ->]; split_and!; reflexivity.
Qed.

Lemma assign_int64_fits (bid : Z) :
  (-9223372036854775808 <= bid <= 9223372036854775807)%Z ->
  assign_int64 bid = Return bid.
Proof.
  intros Hfit; unfold assign_int64, fits_int64, int64_min, int64_max.
  destruct (Z.leb_spec (-9223372036854775808) bid); [|lia].
  destruct (Z.leb_spec bid 9223372036854775807); [reflexivity|lia].
Qed.

Lemma assign_int64_overflow (bid : Z) :
  ~ (-9223372036854775808 <= bid <= 9223372036854775807)%Z ->
  exists message, assign_int64 bid = Raise (ValueError message).
Proof.
  intros Hout; unfold assign_int64, fits_int64, int64_min, int64_max.
  destruct (Z.leb_spec (-9223372036854775808) bid);
    [destruct (Z.leb_spec bid 9223372036854775807); [lia|]|];
    eexists; reflexivity.
Qed.

(** X17: with a campaign identifier and a config whose bid, when it has
    one, fits the signed 64-bit field of the message, [create_ad_group]
    sends one operation that places the group under the campaign's path
    and copies name, status and type from the config, with a bid and a
    tracking template only when the config has them; a platform failure
    propagates to the caller, and an answer that names the group by its
    path customers/C/adGroups/G, C and G numeric, makes the call return
    G.  A bid outside that range, such as 2**63, makes it raise
    [ValueError] while the operation is built, and nothing is sent. *)
Theorem create_ad_group_returns_group_id (config : AdGroupConfig) (campaign : string) :
  googleads_campaign_id self = Some campaign ->
  campaign <> "" ->
  let operation :=
    {| group_name := name config;
       group_status := status config;
       group_type := type_ config;
       group_campaign :=
         "customers/" ++ str_of_optional (googleads_account_id self)
           ++ "/campaigns/" ++ campaign;
       group_cpc_bid_micros := cpc_bid_micros config;
       group_tracking_url_template := tracking_url_template config |} in
  let run := create_ad_group self config in
  ((forall bid, cpc_bid_micros config = Some bid ->
      (-9223372036854775808 <= bid <= 9223372036854775807)%Z) ->
   remote_calls run
   = [ {| call_customer_id := googleads_account_id self;
          call_operations := [operation] |} ]
   /\ (forall ex,
         mutate_ad_groups (client self) (googleads_account_id self) [operation]
         = Fails ex ->
         outcome run = Uncaught.Raised (Uncaught.PlatformError ex))
   /\ (forall c g more,
         LLM.consists_of Ad.is_digit c = true ->
         LLM.consists_of Ad.is_digit g = true ->
         g <> "" ->
         mutate_ad_groups (client self) (googleads_account_id self) [operation]
         = Responds {| results :=
                         {| resource_name := ad_group_path (Some c) (Some g) |}
                         :: more |} ->
         outcome run = Uncaught.Done g))
  /\ (forall bid,
        cpc_bid_micros config = Some bid ->
        ~ (-9223372036854775808 <= bid <= 9223372036854775807)%Z ->
        remote_calls run = []
        /\ exists message,
             outcome run
             = Uncaught.Raised (Uncaught.PythonError (ValueError message))).
Proof.
  intros Hc Hne operation run.
  subst run; unfold create_ad_group, _validate_googleads_campaign_id, campaign_id_set.
  rewrite Hc; destruct campaign as [|c0 campaign]; [congruence|].
  cbn [truthy_str negb].
  split.
  - intros Hfit.
    assert (Hop : _create_ad_group_operation self config = Return operation).
    { unfold _create_ad_group_operation, operation; rewrite Hc.
      destruct (cpc_bid_micros config) as [bid|] eqn:Hbid;
        [rewrite (assign_int64_fits bid (Hfit bid eq_refl))|];
        destruct (tracking_url_template config); reflexivity. }
    rewrite Hop.
    split_and!.
    + destruct (mutate_ad_groups _ _ _); reflexivity.
    + intros ex ->; reflexivity.
    + intros c g more Hcd Hgd Hgne ->; cbn [outcome].
      unfold _extract_ad_group_id; cbn [results first_item bind resource_name].
      rewrite ad_group_id_round_trip by assumption; reflexivity.
  - intros bid Hbid Hout.
    destruct (assign_int64_overflow bid Hout) as (message & Hraise).
    unfold _create_ad_group_operation; rewrite Hbid, Hraise; cbn [bind].
    split; [reflexivity | exists message; reflexivity].
Qed.

End AdGroupFacts.

Lemma create_ad_group_needs_campaign_witness :
  AdGroups.remote_calls
    (AdGroups.create_googleads_ad_group (MoreFixtures.group_manager None) "u-1"
       Fixtures.gym_ad)
  = [].
Proof.
  destruct (create_ad_group_needs_campaign (MoreFixtures.group_manager None)
              {| AdGroups.name := "n"; AdGroups.type_ := AdGroups.SEARCH_STANDARD;
                 AdGroups.status := AdGroups.ENABLED; AdGroups.cpc_bid_micros := None;
                 AdGroups.tracking_url_template := None |}
              "u-1" Fixtures.gym_ad (or_introl eq_refl)) as (_ & _ & H).
  rewrite H; reflexivity.
Defined.

Lemma create_ad_group_returns_group_id_witness :
  AdGroups.outcome
    (AdGroups.create_googleads_ad_group (MoreFixtures.group_manager (Some "7")) "u-1"
       Fixtures.gym_ad)
  = Uncaught.Done "4077"
  /\ AdGroups.remote_calls
       (AdGroups.create_ad_group (MoreFixtures.group_manager (Some "7"))
          MoreFixtures.overflowing_bid)
     = [].
Proof.
  split.
  - destruct (create_ad_group_returns_group_id (MoreFixtures.group_manager (Some "7"))
                {| AdGroups.name := "Gl-https://gym.example-u-1";
                   AdGroups.type_ := AdGroups.SEARCH_STANDARD;
                   AdGroups.status := AdGroups.ENABLED;
                   AdGroups.cpc_bid_micros := Some 10000000%Z;
                   AdGroups.tracking_url_template := None |}
                "7" eq_refl) as ((_ & _ & H) & _); [discriminate | |].
    + intros bid [= <-]; lia.
    + apply (H "1" "4077" []); try reflexivity; discriminate.
  - destruct (create_ad_group_returns_group_id (MoreFixtures.group_manager (Some "7"))
                MoreFixtures.overflowing_bid "7" eq_refl) as (_ & H);
      [discriminate|].
    destruct (H 9223372036854775808%Z eq_refl) as [Hcalls _]; [lia|].
    exact Hcalls.
Defined.

(** ** Further properties of the generation helpers ([llm_services.py]) *)

Section CleanOutputFacts.
Import Py LLM.

Variable word_char : ascii -> bool.
Variable space_char : ascii -> bool.

Local Abbreviation check := (llm_output_constraint_check word_char space_char).
Local Abbreviation strip := (remove_special word_char space_char).
Local Abbreviation kept := (fun c : ascii => word_char c || space_char c).

Lemma check_returns_iff (v : string) (bound : Z) :
  (exists r, check v bound = Return r) <-> (Z.of_nat (String.length v) <= bound)%Z.
Proof.
  unfold llm_output_constraint_check.
  destruct (Z.ltb_spec bound (Z.of_nat (String.length v))).
  - split; [intros [r Hr]; discriminate | lia].
  - split; [intros _; assumption|].
    intros _; destruct (pattern_match v); eexists; reflexivity.
Qed.

Lemma check_result_fits (v r : string) (bound : Z) :
  check v bound = Return r -> (Z.of_nat (String.length r) <= bound)%Z.
Proof.
  unfold llm_output_constraint_check.
  destruct (Z.ltb_spec bound (Z.of_nat (String.length v))); [discriminate|].
  destruct (pattern_match v); cbn [negb]; intros [= <-]; [assumption|].
  pose proof (remove_special_length word_char space_char v); lia.
Qed.

Lemma check_cases (v : string) (bound : Z) :
  (exists r, check v bound = Return r
             /\ (Z.of_nat (String.length v) <= bound)%Z
             /\ (Z.of_nat (String.length r) <= bound)%Z)
  \/ (exists e, check v bound = Raise e /\ (bound < Z.of_nat (String.length v))%Z).
Proof.
  destruct (check v bound) as [r|e] eqn:Hc.
  - left; exists r; split_and!; [reflexivity | | apply (check_result_fits v), Hc].
    apply check_returns_iff; eauto.
  - right; exists e; split; [reflexivity|].
    destruct (Z.ltb_spec bound (Z.of_nat (String.length v))) as [Hlt|Hle]; [exact Hlt|].
    apply check_returns_iff in Hle as [r Hr]; congruence.
Qed.

Lemma remove_special_is_clean (v : string) : consists_of kept (strip v) = true.
Proof.
  induction v as [|c v IH]; [reflexivity|].
  cbn [remove_special]; destruct (word_char c || space_char c) eqn:Hc; cbn [negb].
  - cbn [consists_of]; rewrite Hc, IH; reflexivity.
  - exact IH.
Qed.

Lemma clean_has_nothing_to_remove (v : string) :
  consists_of kept v = true -> strip v = v.
Proof.
  induction v as [|c v IH]; [reflexivity|].
  cbn [consists_of remove_special]; intros H; apply andb_true_iff in H as [Hc Hv].
  rewrite Hc, (IH Hv); reflexivity.
Qed.

Hypothesis class_is_kept :
  forall c, alnum_or_blank c = true -> word_char c || space_char c = true.
Hypothesis line_feed_is_space : space_char line_feed = true.

Lemma pattern_match_is_clean (v : string) :
  pattern_match v = true -> consists_of kept v = true.
Proof.
  induction v as [|c v IH]; [reflexivity|].
  cbn [pattern_match consists_of].
  destruct (alnum_or_blank c) eqn:Hc.
  - intros Hv; rewrite (class_is_kept c Hc), (IH Hv); reflexivity.
  - intros H; apply andb_true_iff in H as [Hlf Hrest].
    apply Ascii.eqb_eq in Hlf; subst c.
    destruct v; [|discriminate].
    rewrite line_feed_is_space, orb_true_r; reflexivity.
Qed.

(** X18: whatever [llm_output_constraint_check] returns consists of word
    characters and whitespace only, and checking it again under the same
    bound returns it unchanged. *)
Theorem llm_output_constraint_check_clean (v r : string) (bound : Z) :
  check v bound = Return r ->
  consists_of kept r = true
  /\ check r bound = Return r.
Proof.
  intros H.
  assert (Hclean : consists_of kept r = true).
  { revert H; unfold llm_output_constraint_check.
    destruct (Z.ltb_spec bound (Z.of_nat (String.length v))); [discriminate|].
    destruct (pattern_match v) eqn:Hp; cbn [negb]; intros [= <-].
    - apply pattern_match_is_clean, Hp.
    - apply remove_special_is_clean. }
  split; [exact Hclean|].
  pose proof (check_result_fits v r bound H) as Hfit.
  unfold llm_output_constraint_check.
  destruct (Z.ltb_spec bound (Z.of_nat (String.length r))); [lia|].
  destruct (pattern_match r); cbn [negb]; [reflexivity|].
  rewrite (clean_has_nothing_to_remove r Hclean); reflexivity.
Qed.

End CleanOutputFacts.

Lemma llm_output_constraint_check_clean_witness :
  LLM.llm_output_constraint_check Fixtures.ascii_word Fixtures.ascii_space
    "Gym Software" 25
  = Py.Return "Gym Software".
Proof.
  apply (llm_output_constraint_check_clean Fixtures.ascii_word Fixtures.ascii_space
           ascii_tables_keep_class eq_refl "Gym: Software!" "Gym Software" 25).
  reflexivity.
Defined.

Section SiteLinkFacts.
Import Py LLM Headlines.

Variable word_char : ascii -> bool.
Variable space_char : ascii -> bool.

(** X19: a site link answer is accepted exactly when its name and
    callout have at most 25 characters and its two descriptions at most
    35; the accepted object keeps the URL, and each of its four texts
    fits its bound. *)
Theorem validate_site_link_bounds (raw : SiteLinkNameDescriptionsCallout) :
  (is_Some (validate_site_link word_char space_char raw)
   <-> String.length (name raw) <= 25
       /\ String.length (description1 raw) <= 35
       /\ String.length (description2 raw) <= 35
       /\ String.length (callout raw) <= 25)
  /\ (forall accepted,
        validate_site_link word_char space_char raw = Some accepted ->
        url accepted = url raw
        /\ String.length (name accepted) <= 25
        /\ String.length (description1 accepted) <= 35
        /\ String.length (description2 accepted) <= 35
        /\ String.length (callout accepted) <= 25).
Proof.
  unfold validate_site_link.
  destruct (check_cases word_char space_char (name raw) 25)
    as [(n & En & Ln & Fn) | (en & En & Ln)]; try rewrite En;
  destruct (check_cases word_char space_char (description1 raw) 35)
    as [(d1 & E1 & L1 & F1) | (e1 & E1 & L1)]; try rewrite E1;
  destruct (check_cases word_char space_char (description2 raw) 35)
    as [(d2 & E2 & L2 & F2) | (e2 & E2 & L2)]; try rewrite E2;
  destruct (check_cases word_char space_char (callout raw) 25)
    as [(c & Ec & Lc & Fc) | (ec & Ec & Lc)]; try rewrite Ec;
  (split;
   [ split;
     [ intros [x Hx]; first [discriminate Hx | lia]
     | intros Hall; first [eexists; reflexivity | lia] ]
   | intros accepted Ha;
     first [ discriminate Ha
           | injection Ha as <-; cbn [url name description1 description2 callout];
             split_and!; first [reflexivity | lia] ] ]).
Qed.

End SiteLinkFacts.

Section RegenerationFacts.
Import Py LLM Headlines.

Variable service : GenerativeService.
Variable content : string.

(** X20: the source passes [max_retries] along with every request, so
    the answers may depend on it.  When the answers to the requests made
    under a bound are the same under a larger bound, more retries never
    change a success: the headline obtained with the smaller bound is
    obtained, after as many requests, with the larger one. *)
Theorem more_retries_keep_the_headline
    (keyword : string) (existing_headlines : list string) (small large : Z)
    (r : AdKeywordHeadline) (requests : nat) :
  (small <= large)%Z ->
  (forall i, i < requests ->
     service content keyword large i = service content keyword small i) ->
  gen_ad_keyword_headline service content keyword small existing_headlines
    = (Return r, requests) ->
  gen_ad_keyword_headline service content keyword large existing_headlines
    = (Return r, requests).
Proof.
  unfold gen_ad_keyword_headline; intros Hle Hsame H.
  apply attempts_returned in H as (i & response & -> & Hi & Hrej & Hs & Hacc & Hk).
  destruct r as [k h]; cbn [LLM.keyword LLM.headline] in *; subst k.
  apply (attempts_accepts service content keyword large existing_headlines
           (Z.to_nat large) 0 i response h).
  - lia.
  - intros j Hj; destruct (Hrej j Hj) as (answer & Hanswer & Hnone).
    exists answer; split; [rewrite Hsame by lia; exact Hanswer | exact Hnone].
  - rewrite Hsame by lia; exact Hs.
  - exact Hacc.
Qed.

(** X21: [regenerate_headline] hands back a headline of at most 29
    characters without asking the service; for a longer one it asks for a
    new headline with the default bound of 5 requests and no list of
    existing headlines.  Whenever it returns, it returns an entry, never
    [None], with the keyword it was given and a headline of at most 29
    characters; when the generation fails, it raises. *)
Theorem regenerate_headline_fits (entry : HeadlineEntry) :
  let run := regenerate_headline service content entry in
  (String.length (entry_headline entry) <= 29 -> run = (Return (Some entry), 0))
  /\ (forall returned requests,
        run = (Return returned, requests) ->
        requests <= 5
        /\ exists fresh,
             returned = Some fresh
             /\ entry_keyword fresh = entry_keyword entry
             /\ String.length (entry_headline fresh) <= 29)
  /\ (29 < String.length (entry_headline entry) ->
      forall e requests,
        gen_ad_keyword_headline_default service content (entry_keyword entry)
          = (Raise e, requests) ->
        exists e', run = (Raise e', requests)).
Proof.
  intros run; subst run; unfold regenerate_headline.
  destruct (Nat.leb_spec (String.length (entry_headline entry)) 29) as [Hfit|Hlong].
  - split_and!; [reflexivity | | lia].
    intros returned requests [= <- <-]; split; [lia|].
    exists entry; split_and!; [reflexivity | reflexivity | exact Hfit].
  - destruct (Nat.ltb_spec 29 (String.length (entry_headline entry))) as [_|Hno];
      [|lia].
    split_and!; [lia | |].
    + intros returned requests.
      destruct (gen_ad_keyword_headline_default service content (entry_keyword entry))
        as [[g|e] n] eqn:Hgen; [|discriminate].
      intros [= <- <-].
      unfold gen_ad_keyword_headline_default, gen_ad_keyword_headline in Hgen.
      apply attempts_returned in Hgen
        as (i & response & -> & Hi & _ & _ & Hacc & _).
      apply first_acceptable_Some in Hacc as (before & after & _ & _ & Hok).
      apply acceptable_iff in Hok as [Hlen _].
      split; [unfold default_max_retries in Hi; lia|].
      eexists; split_and!; [reflexivity | reflexivity | exact Hlen].
    + intros _ e requests ->; eexists; reflexivity.
Qed.

End RegenerationFacts.

Lemma more_retries_keep_the_headline_witness :
  LLM.gen_ad_keyword_headline
    (Fixtures.scripted [ ["Gym Software For Every Fitness Center"]; ["Gym Software"] ])
    "We are a SAAS Gym Company" "Gym" 5 []
  = (Py.Return {| LLM.keyword := "Gym"; LLM.headline := "Gym Software" |}, 2).
Proof.
  apply (more_retries_keep_the_headline
           (Fixtures.scripted
              [ ["Gym Software For Every Fitness Center"]; ["Gym Software"] ])
           "We are a SAAS Gym Company" "Gym" [] 2 5);
    [lia | intros i Hi; reflexivity | reflexivity].
Defined.

Lemma regenerate_headline_fits_witness :
  Headlines.regenerate_headline
    (Fixtures.scripted [ ["Gym Software For Every Fitness Center"]; ["Gym Software"] ])
    "We are a SAAS Gym Company" MoreFixtures.long_entry
  = (Py.Return (Some {| Headlines.entry_keyword := "Gym";
                        Headlines.entry_headline := "Gym Software" |}), 2)
  /\ 2 <= 5.
Proof.
  split; [reflexivity|].
  pose proof (regenerate_headline_fits
                (Fixtures.scripted
                   [ ["Gym Software For Every Fitness Center"]; ["Gym Software"] ])
                "We are a SAAS Gym Company" MoreFixtures.long_entry) as H.
  cbv zeta in H; destruct H as (_ & H & _).
  apply (H (Some {| Headlines.entry_keyword := "Gym";
                    Headlines.entry_headline := "Gym Software" |}) 2).
  reflexivity.
Defined.

(** ** Further properties of the keyword facade ([keywords.py]) *)

Section MoreKeywordFacts.
Import Py GoogleAds Keywords.

Variable self : GoogleAdsKeywordIntegration.

Lemma batch_remote_calls (operations : list AdGroupCriterionOperation)
    (is_negative : bool) (call : RemoteCall) :
  call ∈ remote_calls (_batch_mutate_keywords self operations is_negative) ->
  call_operations call = operations.
Proof.
  unfold _batch_mutate_keywords; intros H.
  destruct (keywords self), (client self) as [c|]; cbn [remote_calls] in H;
    try solve [elem_cases H].
  destruct (mutate_ad_group_criteria c _ _); cbn [remote_calls] in H;
    elem_cases H; subst call; reflexivity.
Qed.

(** X22: every operation that [add_negative_keywords_to_googleads] sends
    creates a negative criterion and every operation that
    [add_keywords_to_googleads] sends a positive one; both place it in the
    instance's ad group, enabled, with the text of one of the instance's
    keywords.  The match type is EXACT or PHRASE only for exactly these
    two names and BROAD for every other value. *)
Theorem keyword_operations_carry_polarity :
  (forall (is_negative : bool) (call : RemoteCall)
          (operation : AdGroupCriterionOperation),
     call ∈ remote_calls
              (if is_negative then add_negative_keywords_to_googleads self
               else add_keywords_to_googleads self) ->
     operation ∈ call_operations call ->
     exists keyword,
       keyword ∈ keywords self
       /\ operation
          = Create {| ad_group := ad_group_path (googleads_account_id self)
                                    (googleads_ad_group_id self);
                      status := ENABLED;
                      keyword_text := text keyword;
                      negative := is_negative;
                      keyword_match_type := match_type_mapping_get (match_type self) |})
  /\ (match_type_mapping_get (match_type self) = EXACT <-> match_type self = "EXACT")
  /\ (match_type_mapping_get (match_type self) = PHRASE <-> match_type self = "PHRASE")
  /\ (match_type self <> "EXACT" -> match_type self <> "PHRASE" ->
      match_type_mapping_get (match_type self) = BROAD).
Proof.
  split_and!.
  - intros is_negative call operation Hcall Hop.
    assert (Hops : call_operations call = built_operations self is_negative).
    { destruct is_negative;
        unfold add_negative_keywords_to_googleads, add_keywords_to_googleads in Hcall;
        destruct (negb (_validate_prerequisites self));
        cbn [remote_calls] in Hcall; try solve [elem_cases Hcall];
        apply batch_remote_calls in Hcall; exact Hcall. }
    rewrite Hops in Hop; unfold built_operations in Hop.
    apply list_elem_of_In, in_map_iff in Hop as (keyword & <- & Hin).
    exists keyword; split; [apply list_elem_of_In, Hin | reflexivity].
  - unfold match_type_mapping_get.
    destruct (String.eqb_spec (match_type self) "EXACT") as [->|H1];
      [split; reflexivity|].
    destruct (String.eqb_spec (match_type self) "BROAD");
      [split; [discriminate | congruence]|].
    destruct (String.eqb_spec (match_type self) "PHRASE");
      split; try discriminate; congruence.
  - unfold match_type_mapping_get.
    destruct (String.eqb_spec (match_type self) "EXACT") as [->|H1];
      [split; discriminate|].
    destruct (String.eqb_spec (match_type self) "BROAD") as [->|H2];
      [split; discriminate|].
    destruct (String.eqb_spec (match_type self) "PHRASE");
      split; try discriminate; try reflexivity; congruence.
  - intros H1 H2; unfold match_type_mapping_get.
    destruct (String.eqb_spec (match_type self) "EXACT"); [congruence|].
    destruct (String.eqb_spec (match_type self) "BROAD"); [reflexivity|].
    destruct (String.eqb_spec (match_type self) "PHRASE"); [congruence | reflexivity].
Qed.

(** X23: the result pairs are cut to the shorter of the two lists: when
    the platform answers with fewer results than keywords, or with more,
    nothing is raised, the pairs are as many as the shorter list, and each
    pair still joins the keyword and the result of the same position. *)
Theorem process_mutation_response_zips
    (response : MutateResponse) (is_negative : bool) :
  exists pairs,
    _process_mutation_response self response is_negative = ReturnsTuple HeadNone pairs
    /\ length pairs = Nat.min (length (keywords self)) (length (results response))
    /\ (forall i pair,
          pairs !! i = Some pair <->
          exists keyword result,
            keywords self !! i = Some keyword
            /\ results response !! i = Some result
            /\ pair = (id keyword, resource_name result)).
Proof.
  unfold _process_mutation_response; eexists; split; [reflexivity|]; split.
  - rewrite length_zip_with, !length_map; reflexivity.
  - intros i pair; rewrite lookup_zip_with, !list_lookup_fmap.
    destruct (keywords self !! i) as [keyword|], (results response !! i) as [result|];
      cbn; split.
    + intros [= <-]; eauto.
    + intros (k & r & [= <-] & [= <-] & ->); reflexivity.
    + discriminate.
    + intros (k & r & _ & H & _); discriminate.
    + discriminate.
    + intros (k & r & H & _); discriminate.
    + discriminate.
    + intros (k & r & H & _); discriminate.
Qed.

End MoreKeywordFacts.
